(** * instabot: the Instagram DM auto-reply pipeline

    A shallow embedding of the message pipeline of the bot: the webhook
    verification handshake, the two versions of the event parser, the
    eligibility filter, the delivery client with its retry loop and the
    orchestrator that sequences them.

    JavaScript values coming from [express.json()] and from the query
    string are modelled by the type [value]; exceptions, the mutable
    locals of a function and the log are modelled by the monad [M]. *)

From Stdlib Require Import Floats.PrimFloat Uint63 ZArith Lia.
From stdpp Require Import base strings gmap list.

Local Open Scope string_scope.
#[local] Set Warnings "-register-all".

(** ** JavaScript values *)

(** The values a parsed JSON body can hold, plus [undefined] (what reading
    a missing property gives). Numbers are IEEE doubles, objects are finite
    maps from keys to values. A string is kept as the bytes of its code
    points in the manner of UTF-8: a surrogate pair as the four bytes of
    its code point, a lone surrogate (U+D800 to U+DFFF, which UTF-8 proper
    leaves out) as the three bytes ED A0..BF 80..BF of its own. *)
Inductive value : Type :=
  | JUndefined
  | JNull
  | JBool (b : bool)
  | JNumber (x : float)
  | JString (s : string)
  | JArray (elems : list value)
  | JObject (props : gmap string value).

(** [ToBoolean]: what [!v], [v ? a : b], [v || w] and [if (v)] test. *)
Definition truthy (v : value) : bool :=
  match v with
  | JUndefined | JNull => false
  | JBool b => b
  | JNumber x => negb (PrimFloat.is_zero x || PrimFloat.is_nan x)
  | JString s => negb (String.eqb s "")
  | JArray _ | JObject _ => true
  end.

(** [a || b] on values. *)
Definition js_or (a b : value) : value := if truthy a then a else b.

(** [Array.isArray(v)]. *)
Definition isArray (v : value) : bool :=
  match v with JArray _ => true | _ => false end.

(** [v.length] for an array [v] (only read behind [Array.isArray]). *)
Definition array_length (v : value) : nat :=
  match v with JArray l => length l | _ => 0 end.

(** [v[i]] for an array [v]: [undefined] out of range. *)
Definition elem (v : value) (i : nat) : value :=
  match v with JArray l => default JUndefined (l !! i) | _ => JUndefined end.

(** [v.k] for a base [v] that is neither [null] nor [undefined] and a key
    [k] that no prototype defines (every key the program reads, [length]
    apart): own property of an object, [undefined] otherwise. *)
Definition member (v : value) (k : string) : value :=
  match v with JObject m => default JUndefined (m !! k) | _ => JUndefined end.

(** [v?.k]. *)
Definition get_opt (v : value) (k : string) : value :=
  match v with JUndefined | JNull => JUndefined | _ => member v k end.

(** An object literal. *)
Definition obj (fields : list (string * value)) : value :=
  JObject (list_to_map fields).

(** [typeof v === 'string']. *)
Definition is_string (v : value) : bool :=
  match v with JString _ => true | _ => false end.

(** [v === s] and [v !== s] for a string [s]. *)
Definition strict_eq_string (v : value) (s : string) : bool :=
  match v with JString t => String.eqb t s | _ => false end.

(** [ToString(v)] throws, as a template literal or [parseInt] applies it
    to [v]. A parsed JSON body holds no function: an object is converted by
    [Object.prototype.toString] unless it has an own property [toString],
    which is not callable, and then [valueOf] gives no primitive either;
    an array is converted by joining the conversions of its elements,
    [null] and [undefined] to the empty string; a primitive always
    converts. *)
Fixpoint toString_throws (v : value) : bool :=
  match v with
  | JObject props => bool_decide (is_Some (props !! "toString"))
  | JArray elems =>
      (fix any (l : list value) : bool :=
         match l with
         | [] => false
         | x :: l' => toString_throws x || any l'
         end) elems
  | _ => false
  end.

(** The number of UTF-16 code units of a string given by its UTF-8 bytes:
    a continuation byte counts for nothing, the lead byte of a four-byte
    sequence for two (a surrogate pair), any other byte for one. *)
Fixpoint utf16_length (s : string) : nat :=
  match s with
  | EmptyString => 0
  | String a rest =>
      let n := Ascii.nat_of_ascii a in
      ((if (n <? 128) || ((192 <=? n) && (n <? 240)) then 1
        else if 240 <=? n then 2 else 0) + utf16_length rest)%nat
  end.

Definition number_of_nat (n : nat) : value :=
  JNumber (PrimFloat.of_uint63 (Uint63.of_Z (Z.of_nat n))).

Definition number_of_Z (z : Z) : value :=
  if (z <? 0)%Z
  then JNumber (PrimFloat.opp (PrimFloat.of_uint63 (Uint63.of_Z (- z))))
  else JNumber (PrimFloat.of_uint63 (Uint63.of_Z z)).

(** ** Thrown values *)

(** The response an axios error (or a resolved call) carries. *)
Record AxiosResponse : Type := mkResponse {
  status : Z;
  statusText : value;
  data : value
}.

(** A thrown value, with the properties the catch blocks read. A
    [TypeError] has a message and neither [code] nor [response]. *)
Record JsError : Type := mkError {
  err_name : string;
  err_message : value;
  err_code : value;
  err_response : option AxiosResponse
}.

Definition TypeError (msg : string) : JsError :=
  mkError "TypeError" (JString msg) JUndefined None.

Definition Error (msg : string) : JsError :=
  mkError "Error" (JString msg) JUndefined None.

(** ** Log entries and observable events *)

Inductive LogLevel : Type := ERROR | INFO | DEBUG.

(** A log message: a literal, or a template literal with one hole. *)
Inductive LogText : Type :=
  | Text (s : string)
  | Template (prefix : string) (hole : value).

(** A value of a log context: a value as it is, or the text
    [JSON.stringify] makes of one. *)
Inductive LogVal : Type :=
  | Val (v : value)
  | Stringified (v : value).
Coercion Val : value >-> LogVal.

(** What [createLogEntry] builds, the wall-clock timestamp left out. *)
Record LogEntry : Type := mkLog {
  level : LogLevel;
  message : LogText;
  error : option JsError;
  context : list (string * LogVal)
}.

(** The outbound surfaces: a log line, or an HTTP POST of axios. *)
Inductive Event : Type :=
  | Logged (entry : LogEntry)
  | HttpPost (url : string) (bearer : value) (body : value).

(** ** The effect monad *)

(** How a block of statements ends. *)
Inductive completion (A : Type) : Type :=
  | Normal (a : A)
  | Thrown (e : JsError).
Arguments Normal {A} a.
Arguments Thrown {A} e.

(** A computation over mutable locals [S]: it ends normally or throws; the
    locals survive a throw, and the events it emits are appended. *)
Definition M (S A : Type) : Type := S -> completion A * S * list Event.

Definition ret {S A} (a : A) : M S A := fun s => (Normal a, s, []).

Definition bind {S A B} (c : M S A) (k : A -> M S B) : M S B :=
  fun s =>
    match c s with
    | (Normal a, s1, ev1) =>
        let '(r, s2, ev2) := k a s1 in (r, s2, (ev1 ++ ev2)%list)
    | (Thrown e, s1, ev1) => (Thrown e, s1, ev1)
    end.

Definition throw {S A} (e : JsError) : M S A := fun s => (Thrown e, s, []).

Definition emit {S} (ev : Event) : M S unit := fun s => (Normal tt, s, [ev]).

Definition get_locals {S} : M S S := fun s => (Normal s, s, []).

Definition put_locals {S} (s : S) : M S unit := fun _ => (Normal tt, s, []).

(** [try { c } catch (error) { handler error }]. *)
Definition try_catch {S A} (c : M S A) (handler : JsError -> M S A) : M S A :=
  fun s =>
    match c s with
    | (Normal a, s1, ev1) => (Normal a, s1, ev1)
    | (Thrown e, s1, ev1) =>
        let '(r, s2, ev2) := handler e s1 in (r, s2, (ev1 ++ ev2)%list)
    end.

(** A call to a function that has no access to the caller's locals. *)
Definition call {S A} (c : M unit A) : M S A :=
  fun s => let '(r, _, ev) := c tt in (r, s, ev).

(** Running a function from the outside. *)
Definition run {A} (c : M unit A) : completion A * list Event :=
  let '(r, _, ev) := c tt in (r, ev).

Declare Scope js_scope.
Delimit Scope js_scope with js.
Notation "x <- c ;; k" := (bind c (fun x => k))
  (at level 100, c at next level, right associativity) : js_scope.
Notation "c ;;; k" := (bind c (fun _ => k))
  (at level 100, right associativity) : js_scope.
Local Open Scope js_scope.

(** [v.k]: a [TypeError] when [v] is [null] or [undefined]. *)
Definition get {S} (v : value) (k : string) : M S value :=
  match v with
  | JUndefined | JNull =>
      throw (TypeError ("Cannot read properties of null or undefined: " +:+ k))
  | _ => ret (member v k)
  end.

(** [v.length]. *)
Definition js_length {S} (v : value) : M S value :=
  match v with
  | JUndefined | JNull =>
      throw (TypeError "Cannot read properties of null or undefined: length")
  | JString s => ret (number_of_nat (utf16_length s))
  | JArray l => ret (number_of_nat (length l))
  | _ => ret (member v "length")
  end.

(** The conversion of [v] to a string, for its effect: a [TypeError] when
    there is none. *)
Definition to_string {S} (v : value) : M S unit :=
  if toString_throws v
  then throw (TypeError "Cannot convert object to primitive value")
  else ret tt.

(** A template literal with one hole: the hole is converted to a string. *)
Definition template {S} (prefix : string) (hole : value) : M S LogText :=
  to_string hole ;;; ret (Template prefix hole).

(** ** src/utils/logger.js *)

Module logger.

Definition error {S} (msg : LogText) (err : option JsError)
    (ctx : list (string * LogVal)) : M S unit :=
  emit (Logged (mkLog ERROR msg err ctx)).

Definition info {S} (msg : LogText) (ctx : list (string * LogVal)) : M S unit :=
  emit (Logged (mkLog INFO msg None ctx)).

Definition debug {S} (msg : LogText) (ctx : list (string * LogVal)) : M S unit :=
  emit (Logged (mkLog DEBUG msg None ctx)).

End logger.

(** ** The process environment *)

(** [process.env]: each variable is a string or is not set. *)
Record Env : Type := mkEnv {
  INSTAGRAM_ACCESS_TOKEN : option string;
  VERIFY_TOKEN : option string;
  BOT_INSTAGRAM_ID : option string
}.

Definition env_value (var : option string) : value :=
  match var with Some s => JString s | None => JUndefined end.

(** ** The parsed message *)

(** The timestamp of a parsed message: the event's own value, or what
    [parseInt] makes of it (the newer envelope shape). *)
Inductive Timestamp : Type :=
  | Raw (v : value)
  | ParseInt (v : value).

(** [parseInt(v)]: the argument is converted to a string first, and the
    call throws when it has no conversion. *)
Definition parseInt {S} (v : value) : M S Timestamp :=
  to_string v ;;; ret (ParseInt v).

(** The object [parseWebhookEvent] returns when it does not return
    [null]. *)
Record ParsedMessage : Type := mkParsed {
  senderId : value;
  messageText : value;
  hasAttachments : bool;
  timestamp : Timestamp;
  messageId : value
}.

(** ** src/utils/messageParser.js: the parser of the messaging list *)

Module messageParser.

(** The body of the [try] block; [None] is [return null]. *)
Definition parseWebhookEvent_try (payload : value)
    : M unit (option ParsedMessage) :=
  if negb (truthy payload) then ret None else
  entries <- get payload "entry" ;;
  if negb (truthy entries) || negb (isArray entries)
     || (array_length entries =? 0)%nat then ret None else
  let entry := elem entries 0 in
  messaging <- get entry "messaging" ;;
  if negb (truthy messaging) || negb (isArray messaging)
     || (array_length messaging =? 0)%nat then ret None else
  let messagingEvent := elem messaging 0 in
  message <- get messagingEvent "message" ;;
  eventType <-
    (if truthy message then ret "message" else
     read <- get messagingEvent "read" ;;
     if truthy read then ret "read" else
     delivery <- get messagingEvent "delivery" ;;
     if truthy delivery then ret "delivery" else
     postback <- get messagingEvent "postback" ;;
     if truthy postback then ret "postback" else ret "unknown") ;;
  if negb (truthy message) then
    logger.debug (Text ("Ignoring non-message event: " +:+ eventType)) [] ;;;
    ret None
  else
  sender <- get messagingEvent "sender" ;;
  if negb (truthy sender) then ret None else
  senderId <- get sender "id" ;;
  if negb (truthy senderId) then ret None else
  timestamp <- get messagingEvent "timestamp" ;;
  if negb (truthy timestamp) then ret None else
  messageId <- get message "mid" ;;
  if negb (truthy messageId) then ret None else
  text <- get message "text" ;;
  let messageText := js_or text JNull in
  attachments <- get message "attachments" ;;
  let hasAttachments :=
    isArray attachments && (0 <? array_length attachments)%nat in
  ret (Some (mkParsed senderId messageText hasAttachments
               (Raw timestamp) messageId)).

Definition parseWebhookEvent (payload : value)
    : M unit (option ParsedMessage) :=
  try_catch (parseWebhookEvent_try payload)
    (fun error =>
       logger.error (Text "Error parsing webhook event") (Some error) [] ;;;
       ret None).

End messageParser.

(** ** unnamed/part_001: the parser of both envelope shapes *)

Module messageParser2.

(** What the shape-specific part leaves in [message], [senderId] and
    [timestamp]. *)
Record Extracted : Type := mkExtracted {
  ex_message : value;
  ex_senderId : value;
  ex_timestamp : Timestamp
}.

(** Format 1, [entry.messaging[0]]; [None] is [return null]. *)
Definition format1 (entry messaging : value) : M unit (option Extracted) :=
  let messagingEvent := elem messaging 0 in
  message <- get messagingEvent "message" ;;
  if truthy message then
    sender <- get messagingEvent "sender" ;;
    timestamp <- get messagingEvent "timestamp" ;;
    ret (Some (mkExtracted message (get_opt sender "id") (Raw timestamp)))
  else
  message_edit <- get messagingEvent "message_edit" ;;
  if truthy message_edit then
    mid <- get message_edit "mid" ;;
    text <- get message_edit "text" ;;
    attachments <- get message_edit "attachments" ;;
    let message := JObject (<["mid" := mid]> (<["text" := text]>
                              (<["attachments" := attachments]> ∅))) in
    sender <- get messagingEvent "sender" ;;
    let senderId := get_opt sender "id" in
    timestamp <- get messagingEvent "timestamp" ;;
    entryId <- get entry "id" ;;
    logger.debug (Text "Processing edited message")
      [("hasSender", Val (JBool (truthy sender)));
       ("senderId", Val senderId);
       ("entryId", Val entryId);
       ("messagingEvent", Stringified messagingEvent)] ;;;
    ret (Some (mkExtracted message senderId (Raw timestamp)))
  else
  read <- get messagingEvent "read" ;;
  eventType <-
    (if truthy read then ret "read" else
     delivery <- get messagingEvent "delivery" ;;
     if truthy delivery then ret "delivery" else
     postback <- get messagingEvent "postback" ;;
     if truthy postback then ret "postback" else ret "unknown") ;;
  logger.debug (Text ("Ignoring non-message event: " +:+ eventType)) [] ;;;
  ret None.

(** Format 2, [entry.changes[0].value]; [None] is [return null]. *)
Definition format2 (changes : value) : M unit (option Extracted) :=
  let change := elem changes 0 in
  field <- get change "field" ;;
  if negb (strict_eq_string field "messages") then
    text <- template "Ignoring non-message change: " field ;;
    logger.debug text [] ;;;
    ret None
  else
  value <- get change "value" ;;
  if negb (truthy value) then
    text <- template "Ignoring non-message change: " field ;;
    logger.debug text [] ;;;
    ret None
  else
  message <- get value "message" ;;
  sender <- get value "sender" ;;
  timestamp <- get value "timestamp" ;;
  timestamp <- (if truthy timestamp then parseInt timestamp
                else ret (Raw JNull)) ;;
  ret (Some (mkExtracted message (get_opt sender "id") timestamp)).

(** The body of the [try] block; [None] is [return null]. *)
Definition parseWebhookEvent_try (payload : value)
    : M unit (option ParsedMessage) :=
  if negb (truthy payload) then ret None else
  entries <- get payload "entry" ;;
  if negb (truthy entries) || negb (isArray entries)
     || (array_length entries =? 0)%nat then ret None else
  let entry := elem entries 0 in
  messaging <- get entry "messaging" ;;
  extracted <-
    (if truthy messaging && isArray messaging
        && (0 <? array_length messaging)%nat
     then format1 entry messaging
     else
       changes <- get entry "changes" ;;
       if truthy changes && isArray changes
          && (0 <? array_length changes)%nat
       then format2 changes
       else ret None) ;;
  match extracted with
  | None => ret None
  | Some (mkExtracted message senderId timestamp) =>
      if negb (truthy senderId) then ret None else
      if negb (truthy message) then ret None else
      messageId <- get message "mid" ;;
      if negb (truthy messageId) then ret None else
      text <- get message "text" ;;
      let messageText := js_or text JNull in
      attachments <- get message "attachments" ;;
      let hasAttachments :=
        isArray attachments && (0 <? array_length attachments)%nat in
      ret (Some (mkParsed senderId messageText hasAttachments
                   timestamp messageId))
  end.

Definition parseWebhookEvent (payload : value)
    : M unit (option ParsedMessage) :=
  try_catch (parseWebhookEvent_try payload)
    (fun error =>
       logger.error (Text "Error parsing webhook event") (Some error) [] ;;;
       ret None).

End messageParser2.

(** ** src/services/instagramService.js: the delivery client *)

Module instagramService.

(** What [sendMessage] resolves to: [{success: true, messageId}] or
    [{success: false, error}]. *)
Inductive SendResult : Type :=
  | SendSuccess (messageId : value)
  | SendFailure (error : value).

(** How one [axios.post] settles. *)
Inductive PostOutcome : Type :=
  | Resolved (response : AxiosResponse)
  | Rejected (error : JsError).

Definition maxRetries : nat := 1.

Definition url : string := "https://graph.instagram.com/v18.0/me/messages".

Section Send.

(** The remote side: how the POST of each attempt (counted from 0)
    settles. *)
Variable post : nat -> PostOutcome.
Variable env : Env.

(** [await axios.post(url, body, config)] at the given attempt. *)
Definition axios_post (attempt : nat) (body : value) : M unit AxiosResponse :=
  emit (HttpPost url (env_value (INSTAGRAM_ACCESS_TOKEN env)) body) ;;;
  match post attempt with
  | Resolved response => ret response
  | Rejected error => throw error
  end.

Definition isNetworkError (error : JsError) : bool :=
  match err_response error with None => true | Some _ => false end
  || strict_eq_string (err_code error) "ECONNABORTED"
  || strict_eq_string (err_code error) "ETIMEDOUT".

(** Computed by the catch block next to [isNetworkError]; the retry
    decision does not read it. *)
Definition is4xxError (error : JsError) : bool :=
  match err_response error with
  | Some response => (400 <=? status response)%Z && (status response <? 500)%Z
  | None => false
  end.

(** [error.response?.data?.error?.message]. *)
Definition response_error_message (error : JsError) : value :=
  match err_response error with
  | Some response => get_opt (get_opt (data response) "error") "message"
  | None => JUndefined
  end.

Definition response_status (error : JsError) : value :=
  match err_response error with
  | Some response => number_of_Z (status response)
  | None => JUndefined
  end.

Definition response_statusText (error : JsError) : value :=
  match err_response error with
  | Some response => statusText response
  | None => JUndefined
  end.

Definition response_data (error : JsError) : value :=
  match err_response error with
  | Some response => data response
  | None => JUndefined
  end.

(** The [while (attempt <= maxRetries)] loop, entered with the local
    [attempt]; [fuel] bounds the number of iterations the model runs
    and [None] is a loop still running when it is used up. *)
Fixpoint sendLoop (fuel : nat) (attempt : nat)
    (recipientId messageText : value) : M unit (option SendResult) :=
  match fuel with
  | O => ret None
  | S fuel' =>
      if (attempt <=? maxRetries)%nat then
        try_catch
          (logger.debug (Text "Sending message via Instagram API")
             [("recipientId", Val recipientId);
              ("attempt", Val (number_of_nat (attempt + 1)));
              ("maxAttempts", Val (number_of_nat (maxRetries + 1)))] ;;;
           response <-
             axios_post attempt
               (JObject (<["recipient" := JObject {["id" := recipientId]}]>
                           {["message" := JObject {["text" := messageText]}]})) ;;
           message_id <- get (data response) "message_id" ;;
           id <- get (data response) "id" ;;
           let messageId := js_or message_id id in
           logger.info (Text "Message sent successfully via Instagram API")
             [("recipientId", Val recipientId);
              ("messageId", Val messageId)] ;;;
           ret (Some (SendSuccess messageId)))
          (fun error =>
             logger.error (Text "Instagram API error") (Some error)
               [("recipientId", Val recipientId);
                ("attempt", Val (number_of_nat (attempt + 1)));
                ("statusCode", Val (response_status error));
                ("statusText", Val (response_statusText error));
                ("errorCode", Val (err_code error));
                ("errorData", Val (response_data error))] ;;;
             if isNetworkError error && (attempt <? maxRetries)%nat then
               let attempt := (attempt + 1)%nat in
               logger.debug
                 (Text "Retrying Instagram API call due to network error")
                 [("recipientId", Val recipientId);
                  ("attempt", Val (number_of_nat (attempt + 1)))] ;;;
               sendLoop fuel' attempt recipientId messageText
             else
               let errorMessage :=
                 js_or (js_or (response_error_message error)
                              (err_message error))
                       (JString "Unknown error") in
               ret (Some (SendFailure errorMessage)))
      else
        ret (Some (SendFailure (JString "Max retries exceeded")))
  end.

Definition sendMessage (fuel : nat) (recipientId messageText : value)
    : M unit (option SendResult) :=
  sendLoop fuel 0 recipientId messageText.

End Send.

End instagramService.

(** ** Node's [Buffer] and [crypto.timingSafeEqual] *)

Module Buffer.

Definition t : Type := list Ascii.ascii.

(** The first two bytes of a lone surrogate: ED, then A0 to BF. *)
Definition surrogate (x y : Ascii.ascii) : bool :=
  (Ascii.nat_of_ascii x =? 237)%nat
  && (160 <=? Ascii.nat_of_ascii y)%nat && (Ascii.nat_of_ascii y <=? 191)%nat.

(** U+FFFD, the replacement character, in UTF-8: EF BF BD. *)
Definition replacement : t :=
  [Ascii.ascii_of_nat 239; Ascii.ascii_of_nat 191; Ascii.ascii_of_nat 189].

(** The UTF-8 encoding of a string: every lone surrogate becomes the
    replacement character, every other code point keeps its bytes. *)
Fixpoint utf8 (l : list Ascii.ascii) : t :=
  match l with
  | [] => []
  | x :: l' =>
      match l' with
      | y :: _ :: rest =>
          if surrogate x y then (replacement ++ utf8 rest)%list
          else x :: utf8 l'
      | _ => x :: utf8 l'
      end
  end.

(** [Buffer.from(s)]: the UTF-8 encoding of [s]. *)
Definition from (s : string) : t := utf8 (String.list_ascii_of_string s).

(** [Buffer.alloc(n)]: [n] zero bytes. *)
Definition alloc (n : nat) : t := replicate n Ascii.zero.

(** [source.copy(target)]: the target after the copy, from offset 0 and
    as far as the target reaches. *)
Definition copy (source target : t) : t :=
  (take (length target) source ++ drop (length source) target)%list.

End Buffer.

Module crypto.

(** Whether some position holds different bytes; every position is
    looked at. *)
Fixpoint differ (a b : Buffer.t) : bool :=
  match a, b with
  | x :: a', y :: b' => orb (differ a' b') (negb (Ascii.eqb x y))
  | _, _ => false
  end.

(** [crypto.timingSafeEqual(a, b)]: a [RangeError] when the byte
    lengths differ. *)
Definition timingSafeEqual {S} (a b : Buffer.t) : M S bool :=
  if (length a =? length b)%nat then ret (negb (differ a b))
  else throw (mkError "RangeError"
                (JString "Input buffers must have the same byte length")
                (JString "ERR_CRYPTO_TIMING_SAFE_EQUAL_LENGTH") None).

End crypto.

(** ** src/routes/webhook.js *)

Module webhook.

Import instagramService.

Definition secureCompare (a b : value) : M unit bool :=
  match a, b with
  | JString a, JString b =>
      let bufferA := Buffer.from a in
      let bufferB := Buffer.from b in
      let maxLength := Nat.max (length bufferA) (length bufferB) in
      let paddedA := Buffer.copy bufferA (Buffer.alloc maxLength) in
      let paddedB := Buffer.copy bufferB (Buffer.alloc maxLength) in
      try_catch
        (equal <- crypto.timingSafeEqual paddedA paddedB ;;
         ret (equal && (length bufferA =? length bufferB)%nat))
        (fun error => ret false)
  | _, _ => ret false
  end.

(** What the handler does with [res]. *)
Inductive Response : Type :=
  | SendStatus (code : Z)
  | StatusSend (code : Z) (body : value).

(** [req.query[k]]. *)
Definition query_param (query : gmap string value) (k : string) : value :=
  default JUndefined (query !! k).

Definition handleVerification (env : Env) (query : gmap string value)
    : M unit Response :=
  let mode := query_param query "hub.mode" in
  let token := query_param query "hub.verify_token" in
  let challenge := query_param query "hub.challenge" in
  if negb (strict_eq_string mode "subscribe") then
    logger.debug (Text "Webhook verification failed: Invalid mode")
      [("mode", Val mode)] ;;;
    ret (SendStatus 403)
  else
  let expectedToken := env_value (VERIFY_TOKEN env) in
  matches <- secureCompare token expectedToken ;;
  if negb matches then
    logger.debug (Text "Webhook verification failed: Invalid verify token") [] ;;;
    ret (SendStatus 403)
  else
  logger.info (Text "Webhook verification successful") [] ;;;
  ret (StatusSend 200 challenge).

(** [v === w] for two values that are not one and the same object:
    primitives compare by value (a NaN equals nothing), objects and
    arrays by identity. *)
Definition strict_eq (v w : value) : bool :=
  match v, w with
  | JUndefined, JUndefined | JNull, JNull => true
  | JBool a, JBool b => Bool.eqb a b
  | JNumber x, JNumber y => PrimFloat.eqb x y
  | JString s, JString t => String.eqb s t
  | _, _ => false
  end.

Definition ids (pm : ParsedMessage) : list (string * LogVal) :=
  [("messageId", Val (messageId pm)); ("senderId", Val (senderId pm))].

Definition shouldReplyToMessage {S} (parsedMessage : option ParsedMessage)
    (botInstagramId : value) : M S bool :=
  match parsedMessage with
  | None =>
      logger.debug (Text "Filtering message: parsedMessage is null") [] ;;;
      ret false
  | Some pm =>
      if strict_eq (messageText pm) JNull then
        logger.debug (Text "Filtering message: messageText is null") (ids pm) ;;;
        ret false
      else if hasAttachments pm then
        logger.debug (Text "Filtering message: message has attachments")
          (ids pm) ;;;
        ret false
      else if strict_eq (senderId pm) botInstagramId then
        logger.debug
          (Text "Filtering message: sender is bot (echo prevention)")
          (ids pm) ;;;
        ret false
      else
        logger.debug (Text "Message passed all filters, will reply")
          (ids pm) ;;;
        ret true
  end.

(** The locals of [processWebhookEvent] that its catch block reads. *)
Record Locals : Type := mkLocals {
  loc_messageId : value;
  loc_senderId : value
}.

Definition loc_ids (l : Locals) : list (string * LogVal) :=
  [("messageId", Val (loc_messageId l)); ("senderId", Val (loc_senderId l))].

(** A block with its own locals, run from a function that has none. *)
Definition with_locals {S A} (init : S) (c : M S A) : M unit A :=
  fun _ => let '(r, _, ev) := c init in (r, tt, ev).

Section Pipeline.

(** The three modules the orchestrator requires, with any behaviour:
    each may log, post, return or throw. *)
Variable parseWebhookEvent : value -> M unit (option ParsedMessage).
Variable generateResponse : value -> M unit value.
Variable sendMessage : value -> value -> M unit SendResult.
Variable env : Env.

(** The body of the [try] block. *)
Definition processWebhookEvent_try (payload : value) : M Locals unit :=
  logger.debug (Text "Received webhook event")
    [("payload", Stringified payload)] ;;;
  parsedMessage <- call (parseWebhookEvent payload) ;;
  match parsedMessage with
  | None =>
      logger.debug
        (Text "Failed to parse message - invalid payload structure") []
  | Some pm =>
      put_locals (mkLocals (messageId pm) (senderId pm)) ;;;
      l <- get_locals ;;
      logger.debug (Text "Parsed message successfully")
        (loc_ids l ++ [("messageText", Val (messageText pm))])%list ;;;
      let botInstagramId := env_value (BOT_INSTAGRAM_ID env) in
      reply <- shouldReplyToMessage (Some pm) botInstagramId ;;
      if negb reply then
        logger.debug (Text "Message filtered - no reply needed") (loc_ids l)
      else
      logger.debug (Text "Message passed filters") (loc_ids l) ;;;
      aiResponse <- call (generateResponse (messageText pm)) ;;
      responseLength <- js_length aiResponse ;;
      logger.info (Text "Generated AI response")
        (loc_ids l ++ [("responseLength", Val responseLength)])%list ;;;
      result <- call (sendMessage (senderId pm) aiResponse) ;;
      match result with
      | SendSuccess instagramMessageId =>
          logger.info (Text "Message processed successfully")
            (loc_ids l ++ [("instagramMessageId", Val instagramMessageId)])%list
      | SendFailure err =>
          logger.error (Text "Failed to send reply") None
            (loc_ids l ++ [("error", Val err)])%list
      end
  end.

Definition processWebhookEvent (payload : value) : M unit unit :=
  with_locals (mkLocals (JString "unknown") (JString "unknown"))
    (try_catch (processWebhookEvent_try payload)
       (fun error =>
          l <- get_locals ;;
          logger.error (Text "Error processing message") (Some error)
            (loc_ids l))).

End Pipeline.

End webhook.

(** ** [String.prototype.trim] *)

Module Strings.

(** A continuation byte of UTF-8. *)
Definition is_continuation (a : Ascii.ascii) : bool :=
  let n := Ascii.nat_of_ascii a in (128 <=? n)%nat && (n <? 192)%nat.

(** The bytes of a string, one group for each character. *)
Fixpoint code_points (l : list Ascii.ascii) : list (list Ascii.ascii) :=
  match l with
  | [] => []
  | b :: rest =>
      match code_points rest with
      | (c :: cs) :: groups =>
          if is_continuation c then (b :: c :: cs) :: groups
          else [b] :: (c :: cs) :: groups
      | groups => [b] :: groups
      end
  end.

(** WhiteSpace and LineTerminator of ECMAScript, as UTF-8: TAB, LF, VT, FF,
    CR, SP, U+00A0, U+1680, U+2000 to U+200A, U+2028, U+2029, U+202F,
    U+205F, U+3000 and U+FEFF. *)
Definition is_whitespace (c : list Ascii.ascii) : bool :=
  match List.map Ascii.nat_of_ascii c with
  | [n] => ((9 <=? n) && (n <=? 13) || (n =? 32))%nat
  | [194; 160] => true
  | [225; 154; 128] => true
  | [226; 128; n] =>
      ((128 <=? n) && (n <=? 138) || (n =? 168) || (n =? 169) || (n =? 175))%nat
  | [226; 129; 159] => true
  | [227; 128; 128] => true
  | [239; 187; 191] => true
  | _ => false
  end.

Fixpoint drop_whitespace (groups : list (list Ascii.ascii))
    : list (list Ascii.ascii) :=
  match groups with
  | c :: rest => if is_whitespace c then drop_whitespace rest else groups
  | [] => []
  end.

(** [s.trim()]. *)
Definition trim (s : string) : string :=
  String.string_of_list_ascii
    (List.concat
       (rev (drop_whitespace
               (rev (drop_whitespace
                       (code_points (String.list_ascii_of_string s))))))).

End Strings.


(** ** src/services/aiService.js: the reply generator *)

Module aiService.

Import instagramService.

Definition url : string := "https://api.groq.com/openai/v1/chat/completions".

Definition systemPrompt : string :=
  "You are a casual 25-year-old Indian friend. Respond in 1-2 sentences maximum. Match the language of the input (English/Hindi/Hinglish). Be friendly and natural, don't reveal you're a bot. Avoid controversial, financial, and medical topics.".

(** The request body for a message. *)
Definition request (messageText : value) : value :=
  obj [("model", JString "llama-3.1-8b-instant");
       ("messages",
        JArray [obj [("role", JString "system");
                     ("content", JString systemPrompt)];
                obj [("role", JString "user"); ("content", messageText)]]);
       ("temperature", JNumber 0x1.b333333333333p-1);
       ("max_tokens", JNumber 75)].

(** [choices[0].message]. An array gives its first element, an object its
    property ["0"], a non-empty string its first code unit (a string, with
    no [message]); anything else has no element 0. *)
Definition first_message {S} (choices : value) : M S value :=
  match choices with
  | JUndefined | JNull =>
      throw (TypeError "Cannot read properties of null or undefined: 0")
  | JArray _ => get (elem choices 0) "message"
  | JObject props => get (default JUndefined (props !! "0")) "message"
  | JString EmptyString => get JUndefined "message"
  | JString _ => ret JUndefined
  | JBool _ | JNumber _ => get JUndefined "message"
  end.

(** [content.trim()]. *)
Definition call_trim {S} (content : value) : M S string :=
  match content with
  | JUndefined | JNull =>
      throw (TypeError "Cannot read properties of null or undefined: trim")
  | JString s => ret (Strings.trim s)
  | _ => throw (TypeError "content.trim is not a function")
  end.

Section Generate.

(** The remote side: how the one POST settles. *)
Variable post : PostOutcome.
Variable AI_API_KEY : option string.

Definition axios_post (body : value) : M unit AxiosResponse :=
  emit (HttpPost url (env_value AI_API_KEY) body) ;;;
  match post with
  | Resolved response => ret response
  | Rejected error => throw error
  end.

Definition generateResponse (messageText : value) : M unit value :=
  try_catch
    (inputLength <- js_length messageText ;;
     logger.debug (Text "Generating AI response")
       [("inputLength", Val inputLength)] ;;;
     response <- axios_post (request messageText) ;;
     choices <- get (data response) "choices" ;;
     message <- first_message choices ;;
     content <- get message "content" ;;
     generatedText <- call_trim content ;;
     logger.debug (Text "AI response generated successfully")
       [("responseLength",
         Val (number_of_nat (utf16_length generatedText)));
        ("tokensUsed",
         Val (get_opt (member (data response) "usage") "total_tokens"))] ;;;
     ret (JString generatedText))
    (fun error =>
       logger.error (Text "Failed to generate AI response") (Some error)
         [("statusCode", Val (response_status error));
          ("errorData", Val (response_data error))] ;;;
       throw (Error "Failed to generate AI response")).

End Generate.

End aiService.

(** ** unnamed/part_005: the check of the environment at startup *)

Module server.

Definition requiredEnvVars : list string :=
  ["INSTAGRAM_ACCESS_TOKEN"; "VERIFY_TOKEN"; "AI_API_KEY"; "BOT_INSTAGRAM_ID"].

(** [requiredEnvVars.filter(varName => !process.env[varName])], with
    [process.env] as a map from names to strings. *)
Definition missingVars (env : gmap string string) : list string :=
  List.filter (fun varName => negb (truthy (env_value (env !! varName))))
    requiredEnvVars.

(** [missingVars.length > 0]: the process logs the names and exits with
    code 1. *)
Definition exits (env : gmap string string) : bool :=
  (0 <? length (missingVars env))%nat.

End server.

(** * Vocabulary of the properties *)

Import instagramService webhook.

(** ** Outcomes of a computation *)

(** [Q] holds of the way [c] ends from the locals [s]: of its completion,
    the locals it leaves and the events it emitted. *)
Definition wp {S A} (c : M S A) (s : S)
    (Q : completion A -> S -> list Event -> Prop) : Prop :=
  let '(r, s', evs) := c s in Q r s' evs.

Definition nullish (v : value) : bool :=
  match v with JUndefined | JNull => true | _ => false end.

(** ** Envelopes *)

(** [payload.entry[0]], [entry.messaging[0]] and [entry.changes[0]] of the
    first entry; [undefined] where the path does not exist. *)
Definition first_entry (payload : value) : value :=
  elem (member payload "entry") 0.

Definition first_event (payload : value) : value :=
  elem (member (first_entry payload) "messaging") 0.

Definition first_change (payload : value) : value :=
  elem (member (first_entry payload) "changes") 0.

(** The first entry has a non-empty messaging list (the older shape). *)
Definition has_messaging (payload : value) : bool :=
  let messaging := member (first_entry payload) "messaging" in
  truthy messaging && isArray messaging && (0 <? array_length messaging)%nat.

(** An envelope of the older shape whose first messaging event carries the
    sender id [sid] and a [message] with the id [mid] and the text
    [text]. *)
Definition carries_in_messaging (payload : value) (sid mid text : string) : Prop :=
  member (member (first_event payload) "sender") "id" = JString sid /\
  member (member (first_event payload) "message") "mid" = JString mid /\
  member (member (first_event payload) "message") "text" = JString text.

(** An envelope of the newer shape: no messaging list, and a first change
    of the field ["messages"] whose value carries them. *)
Definition carries_in_changes (payload : value) (sid mid text : string) : Prop :=
  has_messaging payload = false /\
  member (first_change payload) "field" = JString "messages" /\
  let v := member (first_change payload) "value" in
  member (member v "sender") "id" = JString sid /\
  member (member v "message") "mid" = JString mid /\
  member (member v "message") "text" = JString text.

(** The timestamp a change carries, which the newer parser hands to
    [parseInt] when it is truthy. *)
Definition change_timestamp (payload : value) : value :=
  member (member (first_change payload) "value") "timestamp".

(** The parser [parse] returns a parsed message with exactly these
    fields. *)
Definition returns_exactly (parse : value -> M unit (option ParsedMessage))
    (payload : value) (sid mid text : string) : Prop :=
  exists pm, fst (run (parse payload)) = Normal (Some pm) /\
    senderId pm = JString sid /\ messageId pm = JString mid /\
    messageText pm = JString text.

(** The text field of the message an envelope carries, as each parser
    finds the message. *)
Definition carried_text (payload : value) : value :=
  member (member (first_event payload) "message") "text".

Definition carried_text2 (payload : value) : value :=
  if has_messaging payload then
    let ev := first_event payload in
    if truthy (member ev "message") then member (member ev "message") "text"
    else member (member ev "message_edit") "text"
  else member (member (member (first_change payload) "value") "message") "text".

(** ** The invariant of a parsed message *)

(** Present and non-empty: neither absent nor the empty string. *)
Definition present_nonempty (v : value) : Prop :=
  v <> JUndefined /\ v <> JNull /\ v <> JString "".

Definition fully_populated (pm : ParsedMessage) : Prop :=
  present_nonempty (senderId pm) /\ present_nonempty (messageId pm).

(** The invalid marker, or a fully populated parsed message. *)
Definition invalid_or_populated (r : option ParsedMessage) : Prop :=
  match r with
  | None => True
  | Some pm => fully_populated pm
  end.

(** What both parsers build once the message, the sender id and the
    timestamp are found: the sender id and the message id are required. *)
Definition assemble (senderId message : value) (timestamp : Timestamp)
    : option ParsedMessage :=
  if truthy senderId && truthy message && truthy (member message "mid") then
    let attachments := member message "attachments" in
    Some (mkParsed senderId (js_or (member message "text") JNull)
            (isArray attachments && (0 <? array_length attachments)%nat)
            timestamp (member message "mid"))
  else None.

(** The message object the newer parser makes of a [message_edit]. *)
Definition edit_view (edit : value) : value :=
  JObject (<["mid" := member edit "mid"]>
             (<["text" := member edit "text"]>
                (<["attachments" := member edit "attachments"]> ∅))).

(** The parser ended without throwing, with the invalid marker or with a
    message whose ids are truthy and whose text is the carried text, or
    [null] when that is falsy. *)
Definition parsed_ok (text : value) (r : completion (option ParsedMessage))
    : Prop :=
  match r with
  | Normal None => True
  | Normal (Some pm) =>
      truthy (senderId pm) = true /\ truthy (messageId pm) = true /\
      messageText pm = js_or text JNull
  | Thrown _ => False
  end.

(** ** Envelopes of the test suite and of the two shapes *)

Definition event_of (fields : list (string * value)) : value :=
  obj [("entry", JArray [obj [("id", JString "PAGE_ID");
                              ("messaging", JArray [obj fields])]])].

(** The text message of messageParser.test.js. *)
Definition envelope_message : value :=
  event_of [("sender", obj [("id", JString "SENDER_123")]);
            ("timestamp", JNumber 1234567890);
            ("message", obj [("mid", JString "MSG_789");
                             ("text", JString "Hello!")])].

(** The same message without its timestamp ("should return null for
    missing timestamp"). *)
Definition envelope_no_timestamp : value :=
  event_of [("sender", obj [("id", JString "SENDER_123")]);
            ("message", obj [("mid", JString "MSG_789");
                             ("text", JString "Hello!")])].


(** An event with both the message and an edit of it. *)
Definition envelope_message_and_edit : value :=
  event_of [("sender", obj [("id", JString "SENDER_123")]);
            ("timestamp", JNumber 1234567890);
            ("message", obj [("mid", JString "MSG_789");
                             ("text", JString "Hello!")]);
            ("message_edit", obj [("mid", JString "MSG_789");
                                  ("text", JString "Hello again!")])].

(** The same message with an empty text. *)
Definition envelope_empty_text : value :=
  event_of [("sender", obj [("id", JString "SENDER_123")]);
            ("timestamp", JNumber 1234567890);
            ("message", obj [("mid", JString "MSG_789");
                             ("text", JString "")])].

(** The same message in the field-change shape. *)
Definition envelope_changes : value :=
  obj [("entry", JArray [obj [("id", JString "PAGE_ID");
    ("changes", JArray [obj [("field", JString "messages");
      ("value", obj [("sender", obj [("id", JString "SENDER_123")]);
                     ("timestamp", JString "1234567890");
                     ("message", obj [("mid", JString "MSG_789");
                                      ("text", JString "Hello!")])])]])]])].

(** The same change with a timestamp that has no conversion to a string:
    the JSON object [{"toString": 0}]. *)
Definition envelope_unparsable_timestamp : value :=
  obj [("entry", JArray [obj [("id", JString "PAGE_ID");
    ("changes", JArray [obj [("field", JString "messages");
      ("value", obj [("sender", obj [("id", JString "SENDER_123")]);
                     ("timestamp", obj [("toString", JNumber 0)]);
                     ("message", obj [("mid", JString "MSG_789");
                                      ("text", JString "Hello!")])])]])]])].

(** ** The rules of the eligibility filter, in the order of the spec *)

Inductive Rule : Type := InvalidParse | TextAbsent | HasAttachments | Echo.

Definition rules : list Rule := [InvalidParse; TextAbsent; HasAttachments; Echo].

(** Whether a rule rejects the message. *)
Definition rejects (parsedMessage : option ParsedMessage) (selfId : string)
    (rule : Rule) : bool :=
  match parsedMessage, rule with
  | None, InvalidParse => true
  | None, _ => false
  | Some pm, InvalidParse => false
  | Some pm, TextAbsent =>
      match messageText pm with JNull => true | _ => false end
  | Some pm, HasAttachments => hasAttachments pm
  | Some pm, Echo =>
      match senderId pm with JString s => String.eqb s selfId | _ => false end
  end.

(** The first rule, in order, that rejects; [None] when all pass. *)
Definition first_rejecting (parsedMessage : option ParsedMessage)
    (selfId : string) : option Rule :=
  List.find (rejects parsedMessage selfId) rules.

(** The one line the filter logs for each outcome. *)
Definition filter_line (parsedMessage : option ParsedMessage)
    (outcome : option Rule) : Event :=
  let ctx := match parsedMessage with Some pm => ids pm | None => [] end in
  Logged (mkLog DEBUG
    (Text match outcome with
          | Some InvalidParse => "Filtering message: parsedMessage is null"
          | Some TextAbsent => "Filtering message: messageText is null"
          | Some HasAttachments => "Filtering message: message has attachments"
          | Some Echo => "Filtering message: sender is bot (echo prevention)"
          | None => "Message passed all filters, will reply"
          end) None ctx).

(** ** The verification request *)

(** The request is the one the handshake accepts: the mode is the literal
    ["subscribe"] and the token is a string equal to the configured
    secret. *)
Definition verified (env : Env) (query : gmap string value) : Prop :=
  query_param query "hub.mode" = JString "subscribe" /\
  exists s, query_param query "hub.verify_token" = JString s /\
            VERIFY_TOKEN env = Some s.

(** A string without a lone surrogate: its UTF-8 encoding replaces
    nothing. Such is every string decoded from bytes, as the parameters of
    a query string and the variables of the environment are. *)
Definition well_formed (s : string) : Prop :=
  Buffer.from s = String.list_ascii_of_string s.

Definition well_formed_value (v : value) : Prop :=
  match v with JString s => well_formed s | _ => True end.

(** The lone surrogate U+D800 and the replacement character U+FFFD, as
    strings of one character. *)
Definition lone_surrogate : string :=
  String.string_of_list_ascii
    [Ascii.ascii_of_nat 237; Ascii.ascii_of_nat 160; Ascii.ascii_of_nat 128].

Definition replacement_character : string :=
  String.string_of_list_ascii Buffer.replacement.

(** The query of the test "should return challenge for valid
    subscription". *)
Definition verification_query : gmap string value :=
  list_to_map [("hub.mode", JString "subscribe");
               ("hub.verify_token", JString "test_verify_token_123");
               ("hub.challenge", JString "challenge_abc")].

(** ** Delivery failures *)

(** The number of POSTs among the events: the attempts made. *)
Definition is_post (ev : Event) : bool :=
  match ev with HttpPost _ _ _ => true | Logged _ => false end.

Definition attempts (evs : list Event) : nat :=
  length (List.filter is_post evs).

Definition timed_out (error : JsError) : Prop :=
  err_code error = JString "ECONNABORTED" \/ err_code error = JString "ETIMEDOUT".

(** Connectivity class: no response was received, or the call timed
    out. *)
Definition connectivity_failure (error : JsError) : Prop :=
  err_response error = None \/ timed_out error.

(** Client-error class: a response was received with a 4xx status. *)
Definition client_error_response (error : JsError) : Prop :=
  exists response, err_response error = Some response /\
    (400 <= status response < 500)%Z.

(** A remote side that never answers, and one that answers 400. *)
Definition always_aborted (attempt : nat) : PostOutcome :=
  Rejected (mkError "Error" (JString "Connection aborted")
              (JString "ECONNABORTED") None).

Definition always_bad_request (attempt : nat) : PostOutcome :=
  Rejected (mkError "Error" JUndefined JUndefined
              (Some (mkResponse 400 (JString "Bad Request")
                       (obj [("error",
                              obj [("message",
                                    JString "Invalid recipient ID")])])))).

(** A remote side that times out once and then accepts the message. *)
Definition aborted_once (attempt : nat) : PostOutcome :=
  match attempt with
  | O => Rejected (mkError "Error" (JString "Network timeout")
                     (JString "ETIMEDOUT") None)
  | _ => Resolved (mkResponse 200 (JString "OK")
                     (obj [("message_id", JString "msg_789")]))
  end.

Definition test_env : Env :=
  mkEnv (Some "test-token") (Some "test_verify_token_123") (Some "bot_123").

(** ** The orchestrator *)

(** The lines [processWebhookEvent] logs on its way to the generator. *)
Definition received_line (payload : value) : Event :=
  Logged (mkLog DEBUG (Text "Received webhook event") None
            [("payload", Stringified payload)]).

Definition parsed_line (pm : ParsedMessage) : Event :=
  Logged (mkLog DEBUG (Text "Parsed message successfully") None
            (ids pm ++ [("messageText", Val (messageText pm))])%list).

Definition passed_line (pm : ParsedMessage) : Event :=
  Logged (mkLog DEBUG (Text "Message passed filters") None (ids pm)).

(** What the older parser makes of [envelope_message] and of
    [envelope_empty_text]. *)
Definition parsed_message : ParsedMessage :=
  mkParsed (JString "SENDER_123") (JString "Hello!") false
    (Raw (JNumber 1234567890)) (JString "MSG_789").

Definition parsed_empty_text : ParsedMessage :=
  mkParsed (JString "SENDER_123") JNull false (Raw (JNumber 1234567890))
    (JString "MSG_789").

(** A generator that fails the way [generateResponse] does, and one that
    answers. *)
Definition failing_generator (messageText : value) : M unit value :=
  throw (Error "Failed to generate AI response").

Definition fixed_generator (messageText : value) : M unit value :=
  ret (JString "heyy whats up").

(** The delivery client as the orchestrator calls it: [sendMessage] with
    the two iterations its loop can run. *)
Definition delivery (post : nat -> PostOutcome) (env : Env)
    (recipientId messageText : value) : M unit SendResult :=
  outcome <- sendMessage post env (maxRetries + 1) recipientId messageText ;;
  match outcome with
  | Some result => ret result
  | None => throw (Error "sendMessage did not return")
  end.

(** The locals of [processWebhookEvent] on entry. *)
Definition initial_locals : Locals :=
  mkLocals (JString "unknown") (JString "unknown").

(** The error line of the catch block of [processWebhookEvent]. *)
Definition error_line (error : JsError) (l : Locals) : Event :=
  Logged (mkLog ERROR (Text "Error processing message") (Some error) (loc_ids l)).

(** ** The parsers in closed form *)

(** What [parseWebhookEvent] of messageParser.js returns, read off the
    first messaging event. *)
Definition closed_form (payload : value) : option ParsedMessage :=
  let ev := first_event payload in
  if truthy (member ev "message") && truthy (member ev "timestamp") then
    assemble (member (member ev "sender") "id") (member ev "message")
      (Raw (member ev "timestamp"))
  else None.

(** The same for the parser of both envelope shapes; a timestamp of a
    change on which [parseInt] throws gives [null]. *)
Definition closed_form2 (payload : value) : option ParsedMessage :=
  let ev := first_event payload in
  let sid := member (member ev "sender") "id" in
  if truthy (member ev "message") then
    assemble sid (member ev "message") (Raw (member ev "timestamp"))
  else if truthy (member ev "message_edit") then
    assemble sid (edit_view (member ev "message_edit"))
      (Raw (member ev "timestamp"))
  else if has_messaging payload then None
  else
    let change := first_change payload in
    let v := member change "value" in
    if strict_eq_string (member change "field") "messages" && truthy v then
      if toString_throws (member v "timestamp") then None
      else
        assemble (member (member v "sender") "id") (member v "message")
          (if truthy (member v "timestamp")
           then ParseInt (member v "timestamp") else Raw JNull)
    else None.

(** [Array.isArray(v) && v.length > 0]. *)
Definition nonempty_array (v : value) : bool :=
  match v with JArray (_ :: _) => true | _ => false end.

(** The attachments the envelope carries, for each parser. *)
Definition carried_attachments (payload : value) : value :=
  member (member (first_event payload) "message") "attachments".

Definition carried_attachments2 (payload : value) : value :=
  if has_messaging payload then
    let ev := first_event payload in
    if truthy (member ev "message")
    then member (member ev "message") "attachments"
    else member (member ev "message_edit") "attachments"
  else member (member (member (first_change payload) "value") "message")
         "attachments".

(** The sender id the envelope carries, in either shape. *)
Definition carried_sender2 (payload : value) : value :=
  if has_messaging payload
  then member (member (first_event payload) "sender") "id"
  else member (member (member (first_change payload) "value") "sender") "id".

(** The timestamp the envelope carries, for the parser of both shapes:
    as it is in the messaging list, through [parseInt] in a change. *)
Definition carried_timestamp2 (payload : value) : Timestamp :=
  if has_messaging payload
  then Raw (member (first_event payload) "timestamp")
  else
    let t := member (member (first_change payload) "value") "timestamp" in
    if truthy t then ParseInt t else Raw JNull.

(** What the parser of both shapes makes of [envelope_changes]. *)
Definition parsed_changes : ParsedMessage :=
  mkParsed (JString "SENDER_123") (JString "Hello!") false
    (ParseInt (JString "1234567890")) (JString "MSG_789").

(** A batch: two entries, the first with two messaging events. *)
Definition envelope_batch : value :=
  obj [("entry",
        JArray [obj [("id", JString "PAGE_ID");
                     ("messaging",
                      JArray [obj [("sender", obj [("id", JString "SENDER_123")]);
                                   ("timestamp", JNumber 1234567890);
                                   ("message", obj [("mid", JString "MSG_789");
                                                    ("text", JString "Hello!")])];
                              obj [("sender", obj [("id", JString "SENDER_456")]);
                                   ("timestamp", JNumber 1234567891);
                                   ("message", obj [("mid", JString "MSG_790");
                                                    ("text", JString "Second")])]])];
                obj [("id", JString "PAGE_2");
                     ("messaging",
                      JArray [obj [("sender", obj [("id", JString "SENDER_789")]);
                                   ("timestamp", JNumber 1234567892);
                                   ("message", obj [("mid", JString "MSG_791");
                                                    ("text", JString "Third")])]])]])].

(** A picture without a text ("should detect attachments"). *)
Definition envelope_attachment : value :=
  event_of [("sender", obj [("id", JString "SENDER_123")]);
            ("timestamp", JNumber 1234567890);
            ("message", obj [("mid", JString "MSG_789");
                             ("attachments",
                              JArray [obj [("type", JString "image")]])])].

Definition parsed_attachment : ParsedMessage :=
  mkParsed (JString "SENDER_123") JNull true (Raw (JNumber 1234567890))
    (JString "MSG_789").

(** A sender id that is a number. *)
Definition parsed_numeric_sender : ParsedMessage :=
  mkParsed (JNumber 123) (JString "Hello!") false (Raw (JNumber 1234567890))
    (JString "MSG_789").

(** ** The delivery client in closed form *)

(** What one attempt comes to: the success it returns, or the error its
    catch block receives. *)
Definition attempt_result (outcome : PostOutcome) : SendResult + JsError :=
  match outcome with
  | Resolved response =>
      if nullish (data response)
      then inr (TypeError
                  "Cannot read properties of null or undefined: message_id")
      else inl (SendSuccess (js_or (member (data response) "message_id")
                                   (member (data response) "id")))
  | Rejected error => inr error
  end.

(** The failure returned for an error that is not retried. *)
Definition failure_of (error : JsError) : SendResult :=
  SendFailure (js_or (js_or (response_error_message error) (err_message error))
                     (JString "Unknown error")).

(** What the last attempt comes to. *)
Definition final_result (outcome : PostOutcome) : SendResult :=
  match attempt_result outcome with
  | inl success => success
  | inr error => failure_of error
  end.

(** The result of [sendMessage] and the number of its POSTs. *)
Definition send_closed (post : nat -> PostOutcome) : SendResult * nat :=
  match attempt_result (post 0) with
  | inl success => (success, 1)
  | inr error =>
      if isNetworkError error then (final_result (post 1), 2)
      else (failure_of error, 1)
  end.

(** The request of [sendMessage]. *)
Definition send_post (env : Env) (recipientId messageText : value) : Event :=
  HttpPost url (env_value (INSTAGRAM_ACCESS_TOKEN env))
    (JObject (<["recipient" := JObject {["id" := recipientId]}]>
                {["message" := JObject {["text" := messageText]}]})).

(** Every POST among the events is the request [p]. *)
Definition only_posts (p : Event) (evs : list Event) : Prop :=
  Forall (fun ev => is_post ev = true -> ev = p) evs.

(** The number of POSTs to the address [u]. *)
Definition post_to (u : string) (ev : Event) : bool :=
  match ev with
  | HttpPost u' _ _ => String.eqb u' u
  | Logged _ => false
  end.

Definition posts_to (u : string) (evs : list Event) : nat :=
  length (List.filter (post_to u) evs).

(** A remote side that answers 503, one that answers 200 with an empty
    body and then 200 with an id, and one that answers 200 with a body
    that holds no id. *)
Definition always_unavailable (attempt : nat) : PostOutcome :=
  Rejected (mkError "Error" (JString "Request failed with status code 503")
              (JString "ERR_BAD_RESPONSE")
              (Some (mkResponse 503 (JString "Service Unavailable") JNull))).

Definition empty_body_once (attempt : nat) : PostOutcome :=
  match attempt with
  | O => Resolved (mkResponse 200 (JString "OK") JNull)
  | _ => Resolved (mkResponse 200 (JString "OK")
                     (obj [("message_id", JString "msg_789")]))
  end.

Definition always_without_id (attempt : nat) : PostOutcome :=
  Resolved (mkResponse 200 (JString "OK") (obj [("recipient_id", JString "1")])).

(** ** The reply generator *)

(** The reply of the test "should trim whitespace from response": spaces
    at both ends and a line feed after them. *)
Definition untrimmed_reply : string :=
  "  Hey! How are you?  " +:+ String (Ascii.ascii_of_nat 10) "".

(** A completion whose first choice holds [content]. *)
Definition completion_of (content : value) : PostOutcome :=
  Resolved (mkResponse 200 (JString "OK")
              (obj [("choices",
                     JArray [obj [("message", obj [("content", content)])]])])).

(** The request of [generateResponse]. *)
Definition generate_post (key : option string) (messageText : value) : Event :=
  HttpPost aiService.url (env_value key) (aiService.request messageText).

(** The error line of the catch block of [generateResponse]. *)
Definition failure_line (error : JsError) : Event :=
  Logged (mkLog ERROR (Text "Failed to generate AI response") (Some error)
            [("statusCode", Val (response_status error));
             ("errorData", Val (response_data error))]).

(** The two ways [generateResponse] ends, with the POSTs it made: [p] at
    most once and no other. *)
Definition generated (p : Event) (r : completion value) (evs : list Event)
    : Prop :=
  attempts evs <= 1 /\ only_posts p evs /\
  ((exists s, r = Normal (JString s)) \/
   (r = Thrown (Error "Failed to generate AI response") /\
    exists error, last evs = Some (failure_line error))).

(** ** The lines of the orchestrator after the filter *)

(** [v.length] of a value that is neither [null] nor [undefined]. *)
Definition length_value (v : value) : value :=
  match v with
  | JString s => number_of_nat (utf16_length s)
  | JArray l => number_of_nat (length l)
  | _ => member v "length"
  end.

Definition failed_parse_line : Event :=
  Logged (mkLog DEBUG
            (Text "Failed to parse message - invalid payload structure") None []).

Definition filtered_line (pm : ParsedMessage) : Event :=
  Logged (mkLog DEBUG (Text "Message filtered - no reply needed") None (ids pm)).

Definition generated_line (pm : ParsedMessage) (aiResponse : value) : Event :=
  Logged (mkLog INFO (Text "Generated AI response") None
            (ids pm ++ [("responseLength", Val (length_value aiResponse))])%list).

Definition outcome_line (pm : ParsedMessage) (result : SendResult) : Event :=
  match result with
  | SendSuccess instagramMessageId =>
      Logged (mkLog INFO (Text "Message processed successfully") None
                (ids pm ++ [("instagramMessageId", Val instagramMessageId)])%list)
  | SendFailure err =>
      Logged (mkLog ERROR (Text "Failed to send reply") None
                (ids pm ++ [("error", Val err)])%list)
  end.

(** A generator that returns nothing. *)
Definition silent_generator (messageText : value) : M unit value :=
  ret JUndefined.

(** A parser that knows one message. *)
Definition fixed_parser (payload : value) : M unit (option ParsedMessage) :=
  ret (Some parsed_message).

(** The event is dropped: the run posts nothing, and it is the same
    whatever the generator and the delivery client are. *)
Definition dropped (parse : value -> M unit (option ParsedMessage))
    (env : Env) (payload : value) : Prop :=
  forall generate send,
    attempts (snd (run (processWebhookEvent parse generate send env payload)))
    = 0 /\
    (forall generate' send',
       run (processWebhookEvent parse generate' send' env payload)
       = run (processWebhookEvent parse generate send env payload)).

(** The orchestrator with the modules webhook.js requires: a parser, the
    reply generator and the delivery client, each with its remote side. *)
Definition pipeline (parse : value -> M unit (option ParsedMessage))
    (groq : PostOutcome) (key : option string)
    (instagram : nat -> PostOutcome) (env : Env) (payload : value)
    : M unit unit :=
  processWebhookEvent parse (aiService.generateResponse groq key)
    (delivery instagram env) env payload.

(** At most one POST to the completions endpoint, at most two to the
    messages endpoint, and none to any other address. *)
Definition bounded_posts (trace : list Event) : Prop :=
  posts_to aiService.url trace <= 1 /\
  posts_to url trace <= 2 /\
  attempts trace = posts_to aiService.url trace + posts_to url trace.

(** An environment in which the bot has the id of the sender of
    [envelope_message]. *)
Definition echo_env : Env := mkEnv None None (Some "SENDER_123").

(** * Properties *)

(** ** Rules for [wp] *)

Section WP.
Context {S : Type}.

Lemma wp_ret {A} (a : A) (s : S) Q : Q (Normal a) s [] -> wp (ret a) s Q.
Proof. done. Qed.

Lemma wp_throw {A} (e : JsError) (s : S)
    (Q : completion A -> S -> list Event -> Prop) :
  Q (Thrown e) s [] -> wp (throw e) s Q.
Proof. done. Qed.

Lemma wp_emit (ev : Event) (s : S) Q : Q (Normal tt) s [ev] -> wp (emit ev) s Q.
Proof. done. Qed.

Lemma wp_bind {A B} (c : M S A) (k : A -> M S B) (s : S) Q :
  wp c s (fun r s1 ev1 =>
            match r with
            | Normal a => wp (k a) s1 (fun r' s2 ev2 => Q r' s2 (ev1 ++ ev2)%list)
            | Thrown e => Q (Thrown e) s1 ev1
            end) ->
  wp (bind c k) s Q.
Proof.
  unfold wp, bind. destruct (c s) as [[[a|e] s1] ev1]; [|done].
  by destruct (k a s1) as [[r s2] ev2].
Qed.

Lemma wp_try_catch {A} (c : M S A) (h : JsError -> M S A) (s : S) Q :
  wp c s (fun r s1 ev1 =>
            match r with
            | Normal a => Q (Normal a) s1 ev1
            | Thrown e => wp (h e) s1 (fun r' s2 ev2 => Q r' s2 (ev1 ++ ev2)%list)
            end) ->
  wp (try_catch c h) s Q.
Proof.
  unfold wp, try_catch. destruct (c s) as [[[a|e] s1] ev1]; [done|].
  by destruct (h e s1) as [[r s2] ev2].
Qed.

Lemma wp_get (v : value) (k : string) (s : S) Q :
  (nullish v = true ->
   Q (Thrown (TypeError
                ("Cannot read properties of null or undefined: " +:+ k))) s []) ->
  (nullish v = false -> Q (Normal (member v k)) s []) ->
  wp (get v k) s Q.
Proof. destruct v; simpl; intros H1 H2; first [by apply H1 | by apply H2]. Qed.

Lemma wp_if {A} (b : bool) (c1 c2 : M S A) (s : S) Q :
  (b = true -> wp c1 s Q) -> (b = false -> wp c2 s Q) ->
  wp (if b then c1 else c2) s Q.
Proof. destruct b; auto. Qed.

Lemma wp_call {A} (c : M unit A) (s : S) Q :
  wp c tt (fun r _ evs => Q r s evs) -> wp (call c) s Q.
Proof. unfold wp, call. by destruct (c tt) as [[r []] evs]. Qed.

Lemma wp_get_locals (s : S) Q : Q (Normal s) s [] -> wp get_locals s Q.
Proof. done. Qed.

Lemma wp_put_locals (s' s : S) Q : Q (Normal tt) s' [] -> wp (put_locals s') s Q.
Proof. done. Qed.

Lemma wp_with_locals {A} (init : S) (c : M S A) Q :
  wp c init (fun r _ evs => Q r tt evs) -> wp (with_locals init c) tt Q.
Proof. unfold wp, with_locals. by destruct (c init) as [[r s'] evs]. Qed.

(** A computation whose outcome is known. *)
Lemma wp_known {A} (c : M S A) (s s' : S) (r : completion A)
    (evs : list Event) Q :
  c s = (r, s', evs) -> Q r s' evs -> wp c s Q.
Proof. unfold wp. by intros ->. Qed.

Lemma wp_mono {A} (c : M S A) (s : S) (Q Q' : completion A -> S -> list Event -> Prop) :
  (forall r s' evs, Q r s' evs -> Q' r s' evs) -> wp c s Q -> wp c s Q'.
Proof. unfold wp. destruct (c s) as [[r s'] evs]. auto. Qed.

End WP.

Lemma wp_run {A} (c : M unit A) (P : completion A * list Event -> Prop) :
  wp c tt (fun r _ evs => P (r, evs)) -> P (run c).
Proof. unfold wp, run. by destruct (c tt) as [[r []] evs]. Qed.

Ltac wp_step :=
  lazymatch goal with
  | |- wp (bind _ _) _ _ => apply wp_bind
  | |- wp (ret _) _ _ => apply wp_ret
  | |- wp (throw _) _ _ => apply wp_throw
  | |- wp (emit _) _ _ => apply wp_emit
  | |- wp (logger.debug _ _) _ _ => apply wp_emit
  | |- wp (logger.info _ _) _ _ => apply wp_emit
  | |- wp (logger.error _ _ _) _ _ => apply wp_emit
  | |- wp (get _ _) _ _ => apply wp_get; intros ?
  | |- wp (to_string _) _ _ => unfold to_string
  | |- wp (template _ _) _ _ => unfold template
  | |- wp (parseInt _) _ _ => unfold parseInt
  | |- wp (if _ then _ else _) _ _ => apply wp_if; intros ?
  | |- wp (try_catch _ _) _ _ => apply wp_try_catch
  | |- wp (call _) _ _ => apply wp_call
  | |- wp get_locals _ _ => apply wp_get_locals
  | |- wp (put_locals _) _ _ => apply wp_put_locals
  | |- wp (with_locals _ _) _ _ => apply wp_with_locals
  end.

Ltac truthy_hyps :=
  repeat match goal with
         | H : negb _ = false |- _ => apply negb_false_iff in H
         | H : negb _ = true |- _ => apply negb_true_iff in H
         | H : _ || _ = false |- _ => apply orb_false_iff in H as [? ?]
         | H : _ && _ = true |- _ => apply andb_true_iff in H as [? ?]
         end.

(** ** Reading a path of an envelope backwards *)

Lemma member_inv (v : value) (k : string) (w : value) :
  member v k = w -> w <> JUndefined ->
  exists m, v = JObject m /\ m !! k = Some w.
Proof.
  destruct v; simpl; intros <-; try done.
  destruct (props !! k) eqn:E; simpl; [eauto|done].
Qed.

Lemma elem_inv (v w : value) :
  elem v 0 = w -> w <> JUndefined -> exists rest, v = JArray (w :: rest).
Proof.
  destruct v as [| | | | |[|x l]|]; simpl; intros <-; try done. eauto.
Qed.

Lemma default_inv (o : option value) (w : value) :
  default JUndefined o = w -> w <> JUndefined -> o = Some w.
Proof. destruct o; simpl; intros <-; done. Qed.

Ltac invert_paths :=
  repeat first
    [ progress (simpl in * )
    | progress simplify_eq
    | match goal with
      | H : _ !! _ = Some _ |- _ => progress (rewrite H in * )
      | H : member _ _ = _ |- _ =>
          apply member_inv in H as (? & ? & H); [|discriminate]
      | H : elem _ 0 = _ |- _ =>
          apply elem_inv in H as (? & H); [|discriminate]
      | H : default JUndefined _ = _ |- _ =>
          apply default_inv in H; [|discriminate]
      | H : ?x = JObject _ |- _ => is_var x; subst x
      | H : ?x = JArray _ |- _ => is_var x; subst x
      | H : ?s <> "" |- _ => apply String.eqb_neq in H
      | H : (_ =? _)%string = false |- _ => progress (rewrite H in * )
      end ].

Ltac wp_run_all :=
  repeat (wp_step; invert_paths; try done; try congruence).

Ltac unfold_parsers :=
  unfold messageParser.parseWebhookEvent, messageParser.parseWebhookEvent_try,
    messageParser2.parseWebhookEvent, messageParser2.parseWebhookEvent_try,
    messageParser2.format1, messageParser2.format2.

(** ** Strict equality with a string *)

Lemma strict_eq_string_true (v : value) (s : string) :
  strict_eq_string v s = true <-> v = JString s.
Proof.
  destruct v; simpl; try (split; [done|intros [=]]).
  rewrite String.eqb_eq. split; [by intros ->|by intros [= ->]].
Qed.

(** ** The constant-time comparison *)

Lemma differ_refl (a : Buffer.t) : crypto.differ a a = false.
Proof.
  induction a as [|x a IH]; simpl; [done|].
  rewrite IH, Ascii.eqb_refl. done.
Qed.

Lemma differ_false_eq (a b : Buffer.t) :
  length a = length b -> crypto.differ a b = false -> a = b.
Proof.
  revert b. induction a as [|x a IH]; intros [|y b] Hlen Hd; simpl in *; try done.
  apply orb_false_iff in Hd as [Hd Hxy].
  apply negb_false_iff, Ascii.eqb_eq in Hxy. subst y.
  f_equal. apply IH; [lia|done].
Qed.

Lemma copy_alloc_length (src : Buffer.t) (n : nat) :
  length src <= n -> length (Buffer.copy src (Buffer.alloc n)) = n.
Proof.
  intros Hle. unfold Buffer.copy, Buffer.alloc.
  rewrite length_app, length_take, length_drop, !length_replicate. lia.
Qed.

Lemma copy_alloc_exact (src : Buffer.t) :
  Buffer.copy src (Buffer.alloc (length src)) = src.
Proof.
  unfold Buffer.copy, Buffer.alloc.
  rewrite length_replicate, firstn_all, drop_replicate, Nat.sub_diag.
  simpl. apply app_nil_r.
Qed.

(** On strings without a lone surrogate the encoding is injective. *)
Lemma from_inj (a b : string) :
  well_formed a -> well_formed b -> Buffer.from a = Buffer.from b -> a = b.
Proof.
  unfold well_formed. intros -> -> H.
  rewrite <- (String.string_of_list_ascii_of_string a),
          <- (String.string_of_list_ascii_of_string b), H. done.
Qed.

(** On two strings [secureCompare] decides the equality of their UTF-8
    encodings, and the padded buffers never make [timingSafeEqual]
    throw. *)
Lemma secureCompare_strings (a b : string) :
  secureCompare (JString a) (JString b) tt
  = (Normal (bool_decide (Buffer.from a = Buffer.from b)), tt, []).
Proof.
  unfold secureCompare, try_catch, bind, crypto.timingSafeEqual.
  set (n := Nat.max _ _).
  rewrite !copy_alloc_length by lia.
  rewrite Nat.eqb_refl. unfold ret. simpl.
  repeat f_equal.
  case_bool_decide as Hab.
  - subst n. rewrite Hab, differ_refl, Nat.eqb_refl. done.
  - destruct (Nat.eqb_spec (length (Buffer.from a)) (length (Buffer.from b)))
      as [Hlen|Hlen]; [|apply andb_false_r].
    rewrite andb_true_r. apply negb_false_iff.
    destruct (crypto.differ _ _) eqn:Hd; [done|].
    exfalso. apply Hab.
    subst n. rewrite <- Hlen, Nat.max_id in Hd.
    rewrite Hlen in Hd at 2. rewrite !copy_alloc_exact in Hd.
    by apply differ_false_eq.
Qed.

(** The tests of webhook.test.js on [secureCompare]. *)
Example secureCompare_tests :
  fst (run (secureCompare (JString "test123") (JString "test123"))) = Normal true /\
  fst (run (secureCompare (JString "test123") (JString "test456"))) = Normal false /\
  fst (run (secureCompare (JString "test") (JString "testing"))) = Normal false /\
  fst (run (secureCompare (JNumber 123) (JString "123"))) = Normal false /\
  fst (run (secureCompare (JString "123") JNull)) = Normal false.
Proof. repeat split; vm_compute; reflexivity. Qed.

(** A lone surrogate is encoded as the replacement character, so the two
    compare equal though they are different strings. *)
Example secureCompare_lone_surrogate :
  lone_surrogate <> replacement_character /\
  run (secureCompare (JString lone_surrogate) (JString replacement_character))
  = (Normal true, []).
Proof. split; [discriminate|vm_compute; reflexivity]. Qed.

(** ** The verification handshake *)

(** C9. For every mode, token and challenge of the query and every
    configured secret, [handleVerification] answers without throwing:
    with status 200 and the supplied challenge when the mode is the literal
    ["subscribe"] and the token is a string equal to the configured secret,
    and with 403 in every other case (a token of another length, an absent
    token, a token that is no string, a secret that is not set). The token
    and the secret are strings without a lone surrogate, as a query string
    and the environment give them: the comparison is one of UTF-8
    encodings, which is the equality of such strings. *)
Theorem handleVerification_spec (env : Env) (query : gmap string value) :
  let challenge := query_param query "hub.challenge" in
  well_formed_value (query_param query "hub.verify_token") ->
  well_formed_value (env_value (VERIFY_TOKEN env)) ->
  exists r, fst (run (handleVerification env query)) = Normal r /\
    ((verified env query /\ r = StatusSend 200 challenge) \/
     (~ verified env query /\ r = SendStatus 403)).
Proof.
  intros challenge Htoken Hsecret. unfold run, handleVerification, verified.
  destruct (strict_eq_string (query_param query "hub.mode") "subscribe")
    eqn:Hmode; simpl.
  2:{ eexists; split; [reflexivity|right; split; [|done]].
      intros [Hm _]. apply strict_eq_string_true in Hm. congruence. }
  apply strict_eq_string_true in Hmode.
  unfold bind.
  destruct (query_param query "hub.verify_token") as [| | | |s| |] eqn:Htok;
    try (simpl; eexists; split; [reflexivity|right; split; [|done]];
         by intros [_ (s & [=] & _)]).
  destruct (VERIFY_TOKEN env) as [t|] eqn:Henv; simpl env_value.
  2:{ simpl. eexists; split; [reflexivity|right; split; [|done]].
      by intros [_ (s' & _ & [=])]. }
  rewrite secureCompare_strings.
  rewrite ?Htok in Htoken. rewrite ?Henv in Hsecret.
  simpl in Htoken, Hsecret.
  case_bool_decide as Hst; simpl.
  - apply from_inj in Hst; [|done..]. subst t.
    eexists; split; [reflexivity|left; split; [|done]].
    split; [done|]. by exists s.
  - eexists; split; [reflexivity|right; split; [|done]].
    intros [_ (s' & [= <-] & [= <-])]. done.
Qed.

Lemma handleVerification_spec_witness :
  exists r, fst (run (handleVerification test_env verification_query)) = Normal r /\
    ((verified test_env verification_query /\
      r = StatusSend 200 (query_param verification_query "hub.challenge")) \/
     (~ verified test_env verification_query /\ r = SendStatus 403)).
Proof.
  apply (handleVerification_spec test_env verification_query);
    vm_compute; reflexivity.
Defined.

(** ** The two parsers *)

Lemma truthy_defined (v : value) : truthy v = true -> v <> JUndefined.
Proof. by intros H ->. Qed.

Lemma truthy_present (v : value) : truthy v = true -> present_nonempty v.
Proof.
  destruct v; simpl; try done.
  intros H. repeat split; try done. by intros [= ->].
Qed.

Lemma truthy_string (s : string) : s <> "" -> truthy (JString s) = true.
Proof. intros H. simpl. apply negb_true_iff, String.eqb_neq, H. Qed.

Lemma get_opt_member (v : value) (k : string) : get_opt v k = member v k.
Proof. by destruct v. Qed.

Lemma nullish_falsy (v : value) : nullish v = true -> truthy v = false.
Proof. by destruct v. Qed.

Lemma falsy_member (v : value) (k : string) :
  truthy v = false -> member v k = JUndefined.
Proof. by destruct v. Qed.

Lemma length_positive (n : nat) : (n =? 0)%nat = false -> (0 <? n)%nat = true.
Proof. intros H. apply Nat.eqb_neq in H. apply Nat.ltb_lt. lia. Qed.

Ltac nullish_contra :=
  match goal with
  | H : nullish ?v = true, H' : truthy ?v = true |- _ =>
      rewrite (nullish_falsy _ H) in H'; discriminate
  end.

Ltac finish_assemble :=
  unfold assemble; rewrite ?get_opt_member in *; simpl in *; truthy_hyps;
  try nullish_contra; try congruence;
  repeat match goal with
         | H : truthy ?v = false |- context [member ?v ?k] =>
             rewrite (falsy_member v k H)
         | H : truthy _ = _ |- _ => rewrite H
         end; simpl; try done;
  try (by repeat (case_match; simpl)).

(** Every path above a truthy value read off the first entry exists. *)
Ltac open_path E :=
  apply member_inv in E as (? & ? & E); [|by apply truthy_defined];
  unfold first_change, first_event, first_entry in *; invert_paths.

(** Neither parser throws; what it returns has truthy ids and the carried
    text, or [null] for a falsy one. *)
Lemma parse_ok (payload : value) :
  wp (messageParser.parseWebhookEvent payload) tt
    (fun r _ _ => parsed_ok (carried_text payload) r).
Proof.
  unfold_parsers. unfold carried_text, first_event, first_entry.
  repeat (wp_step; simpl; try done).
  all: truthy_hyps; repeat split; simpl; auto.
Qed.

Lemma parse2_ok (payload : value) :
  wp (messageParser2.parseWebhookEvent payload) tt
    (fun r _ _ => parsed_ok (carried_text2 payload) r).
Proof.
  unfold_parsers.
  unfold carried_text2, has_messaging, first_change, first_event, first_entry.
  repeat (wp_step; simpl; try done).
  all: try (truthy_hyps; repeat split; simpl; auto).
  all: repeat match goal with H : _ = _ |- _ => rewrite H end; simpl; try done.
Qed.

(** The newer parser on a messaging event with a [message]. *)
Lemma parse2_message (payload : value) :
  let ev := first_event payload in
  truthy (member ev "message") = true ->
  wp (messageParser2.parseWebhookEvent payload) tt
    (fun r _ _ =>
       r = Normal (assemble (member (member ev "sender") "id")
                     (member ev "message") (Raw (member ev "timestamp")))).
Proof.
  intros ev Hm. subst ev.
  remember (member (first_event payload) "message") as msg eqn:E.
  symmetry in E. open_path E.
  unfold_parsers. wp_run_all. all: finish_assemble.
Qed.

(** The newer parser on a messaging event with a [message_edit] only. *)
Lemma parse2_edit (payload : value) :
  let ev := first_event payload in
  truthy (member ev "message") = false ->
  truthy (member ev "message_edit") = true ->
  wp (messageParser2.parseWebhookEvent payload) tt
    (fun r _ _ =>
       r = Normal (assemble (member (member ev "sender") "id")
                     (edit_view (member ev "message_edit"))
                     (Raw (member ev "timestamp")))).
Proof.
  intros ev Hm He. subst ev.
  remember (member (first_event payload) "message_edit") as edit eqn:E.
  symmetry in E. open_path E.
  unfold_parsers. wp_run_all. all: finish_assemble.
Qed.

(** A value without a conversion to a string is an object or an array. *)
Lemma toString_throws_truthy (v : value) :
  toString_throws v = true -> truthy v = true.
Proof. by destruct v. Qed.

(** The newer parser on a change of the field ["messages"]: [parseInt]
    throws on a timestamp without a conversion to a string, and the catch
    block returns [null]. *)
Lemma parse2_changes (payload : value) :
  let change := first_change payload in
  let v := member change "value" in
  has_messaging payload = false ->
  member change "field" = JString "messages" ->
  truthy v = true ->
  wp (messageParser2.parseWebhookEvent payload) tt
    (fun r _ _ =>
       r = Normal (if toString_throws (member v "timestamp") then None
                   else assemble (member (member v "sender") "id")
                          (member v "message")
                          (if truthy (member v "timestamp")
                           then ParseInt (member v "timestamp")
                           else Raw JNull))).
Proof.
  intros change v Hno Hf Hv. subst change v.
  remember (member (first_change payload) "value") as v eqn:E.
  symmetry in E. unfold has_messaging in Hno. open_path E.
  unfold_parsers. wp_run_all.
  all: repeat match goal with
              | H : toString_throws _ = _ |- _ => rewrite H
              end.
  all: try match goal with
           | H : truthy ?v = false |- context [toString_throws ?v] =>
               destruct (toString_throws v) eqn:Hc;
               [apply toString_throws_truthy in Hc; congruence|]
           end.
  all: finish_assemble.
Qed.

(** The older parser on a messaging event with a [message]: the same
    result when the timestamp is truthy, [null] otherwise. *)
Lemma parse_message (payload : value) :
  let ev := first_event payload in
  truthy (member ev "message") = true ->
  wp (messageParser.parseWebhookEvent payload) tt
    (fun r _ _ =>
       r = Normal (if truthy (member ev "timestamp")
                   then assemble (member (member ev "sender") "id")
                          (member ev "message") (Raw (member ev "timestamp"))
                   else None)).
Proof.
  intros ev Hm. subst ev.
  remember (member (first_event payload) "message") as msg eqn:E.
  symmetry in E. open_path E.
  unfold_parsers. wp_run_all. all: finish_assemble.
Qed.

(** The older parser returns [null] without a messaging list, without a
    [message] and without a timestamp. *)
Lemma parse_none (payload : value) :
  has_messaging payload = false \/
  truthy (member (first_event payload) "message") = false \/
  truthy (member (first_event payload) "timestamp") = false ->
  wp (messageParser.parseWebhookEvent payload) tt (fun r _ _ => r = Normal None).
Proof.
  unfold has_messaging, first_event, first_entry. intros H.
  unfold_parsers.
  repeat (wp_step; simpl; try done).
  all: truthy_hyps; destruct H as [H|[H|H]]; try congruence.
  all: match goal with
       | Ht : truthy ?m = true, Ha : isArray ?m = true,
         Hl : (array_length ?m =? 0)%nat = false |- _ =>
           rewrite Ht, Ha, (length_positive _ Hl) in H; discriminate
       end.
Qed.

(** From [wp] to the value a run returns. *)
Lemma wp_returns {A} (c : M unit A) (a : A) :
  wp c tt (fun r _ _ => r = Normal a) -> fst (run c) = Normal a.
Proof. intros H. by apply (wp_run c (fun x => fst x = Normal a)). Qed.

Lemma truthy_base (v : value) (k : string) :
  truthy (member v k) = true -> truthy v = true.
Proof. destruct v; simpl; try done. Qed.

Lemma member_truthy (v : value) (k : string) (s : string) :
  member v k = JString s -> truthy v = true.
Proof. destruct v; simpl; try done. Qed.

(** With a non-empty sender id and message id the message is built. *)
Lemma assemble_ids (sender message : value) (ts : Timestamp) (sid mid : string) :
  sid <> "" -> mid <> "" ->
  member sender "id" = JString sid ->
  member message "mid" = JString mid ->
  exists pm, assemble (member sender "id") message ts = Some pm /\
    senderId pm = JString sid /\ messageId pm = JString mid /\
    messageText pm = js_or (member message "text") JNull /\ timestamp pm = ts.
Proof.
  intros Hsid Hmid Hs Hm. unfold assemble.
  rewrite (member_truthy _ _ _ Hm), Hs, Hm, !truthy_string by done. simpl.
  by eexists.
Qed.

Lemma assemble_exact (sender message : value) (ts : Timestamp)
    (sid mid text : string) :
  sid <> "" -> mid <> "" -> text <> "" ->
  member sender "id" = JString sid ->
  member message "mid" = JString mid ->
  member message "text" = JString text ->
  exists pm, assemble (member sender "id") message ts = Some pm /\
    senderId pm = JString sid /\ messageId pm = JString mid /\
    messageText pm = JString text /\ timestamp pm = ts.
Proof.
  intros Hsid Hmid Htext Hs Hm Ht.
  destruct (assemble_ids sender message ts sid mid) as (pm & ? & ? & ? & Hx & ?);
    try done.
  exists pm. repeat split; try done.
  rewrite Hx, Ht. unfold js_or. by rewrite truthy_string.
Qed.

Lemma edit_view_member (edit : value) :
  member (edit_view edit) "mid" = member edit "mid" /\
  member (edit_view edit) "text" = member edit "text" /\
  member (edit_view edit) "attachments" = member edit "attachments".
Proof. done. Qed.


(** The text of a message a parser returned. *)
Lemma parsed_text {parse : value -> M unit (option ParsedMessage)}
    {payload : value} {text : value} (pm : ParsedMessage) :
  wp (parse payload) tt (fun r _ _ => parsed_ok text r) ->
  fst (run (parse payload)) = Normal (Some pm) ->
  messageText pm = js_or text JNull.
Proof.
  intros Hwp.
  apply (wp_run _ (fun x => fst x = Normal (Some pm) -> _)).
  eapply wp_mono; [|exact Hwp].
  simpl. intros r _ _ Hok ->. by destruct Hok as (_ & _ & ?).
Qed.

(** The tests of messageParser.test.js, on the parser they were written
    for and on the newer one. *)
Example parser_tests :
  fst (run (messageParser.parseWebhookEvent envelope_message))
  = Normal (Some parsed_message) /\
  fst (run (messageParser2.parseWebhookEvent envelope_message))
  = Normal (Some parsed_message) /\
  fst (run (messageParser.parseWebhookEvent (obj [("object", JString "instagram")])))
  = Normal None /\
  fst (run (messageParser.parseWebhookEvent (obj [("entry", JArray [])])))
  = Normal None /\
  fst (run (messageParser.parseWebhookEvent JNull)) = Normal None /\
  fst (run (messageParser.parseWebhookEvent JUndefined)) = Normal None /\
  fst (run (messageParser.parseWebhookEvent envelope_no_timestamp)) = Normal None /\
  fst (run (messageParser2.parseWebhookEvent envelope_changes))
  = Normal (Some (mkParsed (JString "SENDER_123") (JString "Hello!") false
                    (ParseInt (JString "1234567890")) (JString "MSG_789"))).
Proof. repeat split; vm_compute; reflexivity. Qed.

(** An entry that is [null] makes the body throw a [TypeError]; the
    catch block logs it and returns [null]. *)
Example parser_catches :
  run (messageParser2.parseWebhookEvent (obj [("entry", JArray [JNull])]))
  = (Normal None,
     [Logged (mkLog ERROR (Text "Error parsing webhook event")
        (Some (TypeError
                 "Cannot read properties of null or undefined: messaging"))
        [])]).
Proof. vm_compute. reflexivity. Qed.

(** A change whose field has no conversion to a string makes the template
    literal of the DEBUG line throw; the catch block logs the TypeError
    and returns [null]. *)
Example parser_catches_conversion :
  run (messageParser2.parseWebhookEvent
         (obj [("entry",
                JArray [obj [("changes",
                              JArray [obj [("field",
                                            obj [("toString", JNumber 0)])]])]])]))
  = (Normal None,
     [Logged (mkLog ERROR (Text "Error parsing webhook event")
        (Some (TypeError "Cannot convert object to primitive value")) [])]).
Proof. vm_compute. reflexivity. Qed.

(** C6. Both versions of [parseWebhookEvent] are total and keep the
    invariant of a parsed message: on every payload, malformed ones
    included, the call ends without throwing, and it returns the invalid
    marker or a message whose senderId and messageId are both present and
    non-empty. *)
Theorem parseWebhookEvent_total_populated (payload : value) :
  (exists r evs,
     run (messageParser2.parseWebhookEvent payload) = (Normal r, evs) /\
     invalid_or_populated r) /\
  (exists r evs,
     run (messageParser.parseWebhookEvent payload) = (Normal r, evs) /\
     invalid_or_populated r).
Proof.
  split.
  - apply (wp_run _ (fun x => exists r evs,
                         x = (Normal r, evs) /\ invalid_or_populated r)).
    eapply wp_mono; [|apply parse2_ok].
    intros [[pm|]|e] _ evs; simpl; [|by eauto|done].
    intros (Hs & Hm & _). exists (Some pm), evs. split; [done|].
    split; by apply truthy_present.
  - apply (wp_run _ (fun x => exists r evs,
                         x = (Normal r, evs) /\ invalid_or_populated r)).
    eapply wp_mono; [|apply parse_ok].
    intros [[pm|]|e] _ evs; simpl; [|by eauto|done].
    intros (Hs & Hm & _). exists (Some pm), evs. split; [done|].
    split; by apply truthy_present.
Qed.

(** C3, as the code has it. For non-empty sender id, message id and
    text: the parser of both shapes returns exactly these values for an
    envelope of the messaging-list shape, and for one of the field-change
    shape whose timestamp [parseInt] can convert to a string (any absent
    or falsy timestamp, any string or number); when the timestamp has no
    conversion, [parseInt] throws and the parser returns the invalid
    marker. The parser of src/utils/messageParser.js returns these values
    for the messaging-list shape when the event also carries a truthy
    timestamp; without one, and for the field-change shape, it returns the
    invalid marker. *)
Theorem parse_exact_fields (payload : value) (sid mid text : string) :
  sid <> "" -> mid <> "" -> text <> "" ->
  (carries_in_messaging payload sid mid text \/
   (carries_in_changes payload sid mid text /\
    toString_throws (change_timestamp payload) = false) ->
   returns_exactly messageParser2.parseWebhookEvent payload sid mid text) /\
  (carries_in_changes payload sid mid text ->
   toString_throws (change_timestamp payload) = true ->
   fst (run (messageParser2.parseWebhookEvent payload)) = Normal None) /\
  (carries_in_messaging payload sid mid text ->
   if truthy (member (first_event payload) "timestamp")
   then returns_exactly messageParser.parseWebhookEvent payload sid mid text
   else fst (run (messageParser.parseWebhookEvent payload)) = Normal None) /\
  (carries_in_changes payload sid mid text ->
   fst (run (messageParser.parseWebhookEvent payload)) = Normal None).
Proof.
  intros Hsid Hmid Htext. unfold change_timestamp. repeat split.
  - intros [(Hs & Hm & Ht)|[(Hno & Hf & Hs & Hm & Ht) Hts]].
    + destruct (assemble_exact _ _ (Raw (member (first_event payload) "timestamp"))
                  _ _ _ Hsid Hmid Htext Hs Hm Ht) as (pm & Hpm & ? & ? & ? & _).
      exists pm. split; [|done].
      apply wp_returns. rewrite <- Hpm. apply parse2_message.
      by apply member_truthy in Hm.
    + set (v := member (first_change payload) "value") in *.
      destruct (assemble_exact _ _
                  (if truthy (member v "timestamp")
                   then ParseInt (member v "timestamp") else Raw JNull)
                  _ _ _ Hsid Hmid Htext Hs Hm Ht) as (pm & Hpm & ? & ? & ? & _).
      exists pm. split; [|done].
      apply wp_returns. rewrite <- Hpm.
      eapply wp_mono; [|apply parse2_changes; try done;
                        by apply member_truthy, truthy_base in Hm].
      simpl. intros r _ _ ->. fold v. by rewrite Hts.
  - intros (Hno & Hf & Hs & Hm & Ht) Hts. apply wp_returns.
    eapply wp_mono; [|apply parse2_changes; try done;
                      by apply member_truthy, truthy_base in Hm].
    simpl. intros r _ _ ->. by rewrite Hts.
  - intros (Hs & Hm & Ht).
    destruct (truthy (member (first_event payload) "timestamp")) eqn:Hts.
    + destruct (assemble_exact _ _ (Raw (member (first_event payload) "timestamp"))
                  _ _ _ Hsid Hmid Htext Hs Hm Ht) as (pm & Hpm & ? & ? & ? & _).
      exists pm. split; [|done].
      apply wp_returns. rewrite <- Hpm.
      eapply wp_mono; [|apply parse_message; by apply member_truthy in Hm].
      simpl. intros r _ _ ->. by rewrite Hts.
    + apply wp_returns, parse_none. auto.
  - intros (Hno & _). apply wp_returns, parse_none. auto.
Qed.

Lemma parse_exact_fields_witness :
  carries_in_messaging envelope_message "SENDER_123" "MSG_789" "Hello!" /\
  returns_exactly messageParser2.parseWebhookEvent envelope_message
    "SENDER_123" "MSG_789" "Hello!" /\
  carries_in_changes envelope_changes "SENDER_123" "MSG_789" "Hello!" /\
  toString_throws (change_timestamp envelope_changes) = false /\
  returns_exactly messageParser2.parseWebhookEvent envelope_changes
    "SENDER_123" "MSG_789" "Hello!".
Proof.
  assert (carries_in_messaging envelope_message "SENDER_123" "MSG_789" "Hello!")
    as H by (repeat split; vm_compute; reflexivity).
  assert (carries_in_changes envelope_changes "SENDER_123" "MSG_789" "Hello!")
    as H' by (repeat split; vm_compute; reflexivity).
  split; [exact H|]. split.
  { refine (proj1 (parse_exact_fields envelope_message "SENDER_123" "MSG_789"
                     "Hello!" _ _ _) (or_introl H)); discriminate. }
  split; [exact H'|]. split; [reflexivity|].
  refine (proj1 (parse_exact_fields envelope_changes "SENDER_123" "MSG_789"
                   "Hello!" _ _ _) (or_intror (conj H' eq_refl))); discriminate.
Defined.

(** C3 fails on src/utils/messageParser.js: an envelope of the
    field-change shape, and one of the messaging-list shape without a
    timestamp, carry the three values and are parsed to the invalid
    marker. It fails on the parser of both shapes as well: a change whose
    timestamp is the object [{"toString": 0}] carries the three values,
    [parseInt] throws on the timestamp, and the catch block returns the
    invalid marker. *)
Lemma parse_exact_fields_counterexample :
  carries_in_changes envelope_changes "SENDER_123" "MSG_789" "Hello!" /\
  carries_in_messaging envelope_no_timestamp "SENDER_123" "MSG_789" "Hello!" /\
  ~ returns_exactly messageParser.parseWebhookEvent envelope_changes
      "SENDER_123" "MSG_789" "Hello!" /\
  ~ returns_exactly messageParser.parseWebhookEvent envelope_no_timestamp
      "SENDER_123" "MSG_789" "Hello!" /\
  carries_in_changes envelope_unparsable_timestamp
    "SENDER_123" "MSG_789" "Hello!" /\
  run (messageParser2.parseWebhookEvent envelope_unparsable_timestamp)
  = (Normal None,
     [Logged (mkLog ERROR (Text "Error parsing webhook event")
        (Some (TypeError "Cannot convert object to primitive value")) [])]).
Proof.
  repeat split; try (vm_compute; reflexivity).
  - intros (pm & H & _). vm_compute in H. discriminate.
  - intros (pm & H & _). vm_compute in H. discriminate.
Qed.

(** C7, as the code has it. For a messaging event with a non-empty sender
    id and a message with a non-empty message id but no timestamp field:
    the parser of both shapes returns a valid parsed message whose
    timestamp is absent; the parser of src/utils/messageParser.js also
    requires the timestamp and returns the invalid marker. *)
Theorem parse_without_timestamp (payload : value) (sid mid : string) :
  sid <> "" -> mid <> "" ->
  member (member (first_event payload) "sender") "id" = JString sid ->
  member (member (first_event payload) "message") "mid" = JString mid ->
  member (first_event payload) "timestamp" = JUndefined ->
  (exists pm,
     fst (run (messageParser2.parseWebhookEvent payload)) = Normal (Some pm) /\
     senderId pm = JString sid /\ messageId pm = JString mid /\
     timestamp pm = Raw JUndefined) /\
  fst (run (messageParser.parseWebhookEvent payload)) = Normal None.
Proof.
  intros Hsid Hmid Hs Hm Hts. split.
  - destruct (assemble_ids _ _ (Raw (member (first_event payload) "timestamp"))
                _ _ Hsid Hmid Hs Hm) as (pm & Hpm & ? & ? & _ & Ht).
    exists pm. rewrite Hts in Ht. split; [|done].
    apply wp_returns. rewrite <- Hpm. apply parse2_message.
    by apply member_truthy in Hm.
  - apply wp_returns, parse_none. right; right. by rewrite Hts.
Qed.

Lemma parse_without_timestamp_witness :
  member (first_event envelope_no_timestamp) "timestamp" = JUndefined /\
  exists pm,
    fst (run (messageParser2.parseWebhookEvent envelope_no_timestamp))
    = Normal (Some pm) /\
    senderId pm = JString "SENDER_123" /\ messageId pm = JString "MSG_789" /\
    timestamp pm = Raw JUndefined.
Proof.
  split; [vm_compute; reflexivity|].
  refine (proj1 (parse_without_timestamp envelope_no_timestamp "SENDER_123"
                   "MSG_789" _ _ _ _ _));
    first [discriminate | vm_compute; reflexivity].
Defined.

(** C7 fails on src/utils/messageParser.js: the envelope of its test
    "should return null for missing timestamp" has a sender id and a
    message id, and is parsed to the invalid marker. *)
Lemma parse_without_timestamp_counterexample :
  member (member (first_event envelope_no_timestamp) "sender") "id"
  = JString "SENDER_123" /\
  member (member (first_event envelope_no_timestamp) "message") "mid"
  = JString "MSG_789" /\
  member (first_event envelope_no_timestamp) "timestamp" = JUndefined /\
  fst (run (messageParser.parseWebhookEvent envelope_no_timestamp)) = Normal None.
Proof. repeat split; vm_compute; reflexivity. Qed.




(** In the parser of both shapes a [message] takes precedence over a
    [message_edit] of the same event. *)
Example message_takes_precedence :
  fst (run (messageParser2.parseWebhookEvent envelope_message_and_edit))
  = Normal (Some parsed_message).
Proof. vm_compute. reflexivity. Qed.

(** ** The eligibility filter *)

Lemma shouldReply_run (parsedMessage : option ParsedMessage) (selfId : string) :
  run (shouldReplyToMessage parsedMessage (JString selfId))
  = (Normal (bool_decide (first_rejecting parsedMessage selfId = None)),
     [filter_line parsedMessage (first_rejecting parsedMessage selfId)]).
Proof.
  destruct parsedMessage as [[sid text att ts mid]|]; [|done].
  unfold run, shouldReplyToMessage, first_rejecting; simpl.
  destruct text; simpl; try done;
  destruct att; simpl; try done;
  destruct sid; simpl; try done;
  destruct (String.eqb _ _); done.
Qed.

(** The filter does not touch the locals of its caller, and decides and
    logs the same from any of them. *)
Lemma shouldReply_locals {S} (s : S) (parsedMessage : option ParsedMessage)
    (botInstagramId : value) :
  shouldReplyToMessage parsedMessage botInstagramId s
  = (fst (run (shouldReplyToMessage parsedMessage botInstagramId)), s,
     snd (run (shouldReplyToMessage parsedMessage botInstagramId))).
Proof.
  destruct parsedMessage as [pm|]; [|done].
  unfold run, shouldReplyToMessage.
  destruct (strict_eq (messageText pm) JNull); [done|].
  destruct (hasAttachments pm); [done|].
  destruct (strict_eq (senderId pm) botInstagramId); done.
Qed.

Lemma shouldReply_accepts (pm : ParsedMessage) (botInstagramId : value) :
  fst (run (shouldReplyToMessage (Some pm) botInstagramId)) = Normal true ->
  run (shouldReplyToMessage (Some pm) botInstagramId)
  = (Normal true, [filter_line (Some pm) None]).
Proof.
  unfold run, shouldReplyToMessage.
  destruct (strict_eq (messageText pm) JNull); [done|].
  destruct (hasAttachments pm); [done|].
  destruct (strict_eq (senderId pm) botInstagramId); done.
Qed.

Lemma absent_text_rejected (pm : ParsedMessage) (botInstagramId : value) :
  messageText pm = JNull ->
  run (shouldReplyToMessage (Some pm) botInstagramId)
  = (Normal false, [filter_line (Some pm) (Some TextAbsent)]).
Proof. unfold run, shouldReplyToMessage. by intros ->. Qed.

(** The tests of webhook.test.js on the filter. *)
Example shouldReplyToMessage_tests :
  run (shouldReplyToMessage None (JString "bot_123"))
  = (Normal false, [filter_line None (Some InvalidParse)]) /\
  fst (run (shouldReplyToMessage (Some parsed_message) (JString "bot_123")))
  = Normal true /\
  fst (run (shouldReplyToMessage (Some parsed_message) (JString "SENDER_123")))
  = Normal false /\
  run (shouldReplyToMessage
         (Some (mkParsed (JString "sender_456") JNull true
                  (Raw (JNumber 1234567890)) (JString "msg_id")))
         (JString "bot_123"))
  = (Normal false,
     [filter_line (Some (mkParsed (JString "sender_456") JNull true
                           (Raw (JNumber 1234567890)) (JString "msg_id")))
        (Some TextAbsent)]).
Proof. repeat split; vm_compute; reflexivity. Qed.

(** C1. For every parsed message or invalid marker and every self id,
    [shouldReplyToMessage] returns true exactly when the message is not
    the invalid marker, its text is not the absent marker, it has no
    attachments and its sender differs from the self id. The rules are
    tried in that order and the first that rejects ends the call: the one
    line logged is the line of the first rejecting rule, or the accepting
    line when none rejects. *)
Theorem shouldReplyToMessage_spec (parsedMessage : option ParsedMessage)
    (selfId : string) :
  exists reply,
    run (shouldReplyToMessage parsedMessage (JString selfId))
    = (Normal reply,
       [filter_line parsedMessage (first_rejecting parsedMessage selfId)]) /\
    (reply = true <-> first_rejecting parsedMessage selfId = None) /\
    (reply = true <->
     exists pm, parsedMessage = Some pm /\ messageText pm <> JNull /\
       hasAttachments pm = false /\ senderId pm <> JString selfId).
Proof.
  eexists. split; [apply shouldReply_run|]. split.
  - by rewrite bool_decide_eq_true.
  - rewrite bool_decide_eq_true. unfold first_rejecting.
    destruct parsedMessage as [[sid text att ts mid]|]; simpl.
    2:{ split; [done|]. by intros (? & ? & _). }
    split.
    + intros H. eexists; split; [done|]. simpl.
      destruct text; try done; destruct att; try done;
        repeat split; try done.
      all: intros ->; simpl in H; by rewrite String.eqb_refl in H.
    + intros (pm & [= <-] & Ht & Ha & Hs). simpl in *. subst att.
      destruct text; try done; destruct sid as [| | | |sender| |]; try done.
      all: destruct (String.eqb_spec sender selfId); [by subst|done].
Qed.

(** C10. For both parsers: when an envelope parses successfully and the
    text field of its message is the empty string, the parsed messageText
    is the absent marker [null], and the filter rejects the message on the
    text-presence rule, whatever the bot id. *)
Theorem empty_text_is_absent (payload : value) (pm : ParsedMessage)
    (botInstagramId : value) :
  (fst (run (messageParser2.parseWebhookEvent payload)) = Normal (Some pm) ->
   carried_text2 payload = JString "" ->
   messageText pm = JNull /\
   run (shouldReplyToMessage (Some pm) botInstagramId)
   = (Normal false, [filter_line (Some pm) (Some TextAbsent)])) /\
  (fst (run (messageParser.parseWebhookEvent payload)) = Normal (Some pm) ->
   carried_text payload = JString "" ->
   messageText pm = JNull /\
   run (shouldReplyToMessage (Some pm) botInstagramId)
   = (Normal false, [filter_line (Some pm) (Some TextAbsent)])).
Proof.
  split; intros Hrun Htext.
  - pose proof (parsed_text pm (parse2_ok payload) Hrun) as Hpm.
    rewrite Htext in Hpm. split; [done|]. by apply absent_text_rejected.
  - pose proof (parsed_text pm (parse_ok payload) Hrun) as Hpm.
    rewrite Htext in Hpm. split; [done|]. by apply absent_text_rejected.
Qed.

Lemma empty_text_is_absent_witness :
  carried_text envelope_empty_text = JString "" /\
  fst (run (messageParser.parseWebhookEvent envelope_empty_text))
  = Normal (Some parsed_empty_text) /\
  run (shouldReplyToMessage (Some parsed_empty_text) (JString "bot_123"))
  = (Normal false, [filter_line (Some parsed_empty_text) (Some TextAbsent)]).
Proof.
  assert (carried_text envelope_empty_text = JString "") as Ht
    by (vm_compute; reflexivity).
  assert (fst (run (messageParser.parseWebhookEvent envelope_empty_text))
          = Normal (Some parsed_empty_text)) as Hr by (vm_compute; reflexivity).
  split; [exact Ht|]. split; [exact Hr|].
  exact (proj2 (proj2 (empty_text_is_absent envelope_empty_text
                         parsed_empty_text (JString "bot_123")) Hr Ht)).
Defined.

(** ** The delivery client *)

Lemma attempts_app (evs evs' : list Event) :
  attempts (evs ++ evs') = attempts evs + attempts evs'.
Proof. unfold attempts. by rewrite List.filter_app, length_app. Qed.

Lemma isNetworkError_iff (e : JsError) :
  isNetworkError e = true <-> connectivity_failure e.
Proof.
  unfold isNetworkError, connectivity_failure, timed_out.
  rewrite !orb_true_iff, !strict_eq_string_true.
  destruct (err_response e); intuition congruence.
Qed.

Lemma is4xxError_iff (e : JsError) :
  is4xxError e = true <-> client_error_response e.
Proof.
  unfold is4xxError, client_error_response.
  destruct (err_response e) as [r|].
  - rewrite andb_true_iff, Z.leb_le, Z.ltb_lt. split.
    + intros H. by exists r.
    + by intros (r' & [= <-] & H).
  - split; [done|]. by intros (r' & [=] & _).
Qed.

Lemma client_error_not_network (e : JsError) :
  client_error_response e -> ~ timed_out e -> isNetworkError e = false.
Proof.
  intros (r & Hr & _) Hto. apply not_true_iff_false.
  rewrite isNetworkError_iff. unfold connectivity_failure. rewrite Hr.
  intros [[=]|H]. by apply Hto.
Qed.

Section Send.
Variable post : nat -> PostOutcome.
Variable env : Env.
Variables recipientId messageText : value.

Ltac send_step :=
  first [ wp_step
        | match goal with
          | |- wp (axios_post _ _ _ _) _ _ => unfold axios_post
          | |- wp (match post ?n with _ => _ end) _ _ =>
              let E := fresh "Hpost" in destruct (post n) eqn:E
          end ].

(** The last iteration the retry budget allows: one attempt, and no
    retry whatever the failure. *)
Lemma sendLoop_last (fuel : nat) :
  wp (sendLoop post env (S fuel) 1 recipientId messageText) tt
    (fun r _ evs => exists result, r = Normal (Some result) /\
       attempts evs = 1 /\
       forall e, post 1 = Rejected e -> exists err, result = SendFailure err).
Proof.
  simpl. unfold maxRetries.
  repeat (send_step; simpl in *; rewrite ?andb_false_r in *; try done).
  all: eexists; split; [reflexivity|]; split; [reflexivity|]; intros; by eauto.
Qed.

(** The first iteration: a rejection the code takes for a network error
    leads to the last iteration, any other rejection ends the call. *)
Lemma sendLoop_first (fuel : nat) :
  1 <= fuel ->
  wp (sendLoop post env (S fuel) 0 recipientId messageText) tt
    (fun r _ evs => exists result, r = Normal (Some result) /\
       (1 <= attempts evs <= 2) /\
       (forall e, post 0 = Rejected e ->
          if isNetworkError e
          then attempts evs = 2 /\
               forall e', post 1 = Rejected e' ->
                          exists err, result = SendFailure err
          else attempts evs = 1 /\ exists err, result = SendFailure err)).
Proof.
  intros Hfuel. cbn [sendLoop]. unfold maxRetries.
  repeat (send_step; cbn -[sendLoop] in *; rewrite ?andb_true_r in *; try done).
  all: try (destruct fuel as [|fuel]; [lia|];
            eapply wp_mono; [|apply sendLoop_last];
            intros r [] evs (result & -> & Hn & Hr); simpl;
            exists result; split; [done|];
            unfold attempts in *; simpl; rewrite Hn; split; [lia|];
            intros e' [= <-]).
  all: try (eexists; split; [reflexivity|];
            split; [unfold attempts; simpl; lia|]; intros e' [= <-]).
  all: match goal with H : isNetworkError _ = _ |- _ => rewrite H end; eauto.
Qed.

End Send.

(** C4. For every recipient, text and behaviour of the remote side, and
    with fuel for the two iterations the loop can run, [sendMessage] ends
    without throwing and returns an outcome, after one or two attempts.
    When every attempt fails in the connectivity class (no response, or a
    timeout code) it makes exactly two attempts and returns a failure.
    When the first attempt fails with a 4xx response (and is no timeout)
    it makes exactly one attempt and returns a failure. *)
Theorem sendMessage_outcome (post : nat -> PostOutcome) (env : Env)
    (fuel : nat) (recipientId messageText : value) :
  2 <= fuel ->
  exists result evs,
    run (sendMessage post env fuel recipientId messageText)
    = (Normal (Some result), evs) /\
    (1 <= attempts evs <= 2) /\
    ((forall n, exists e, post n = Rejected e /\ connectivity_failure e) ->
     attempts evs = 2 /\ exists err, result = SendFailure err) /\
    (forall e, post 0 = Rejected e -> client_error_response e ->
               ~ timed_out e ->
     attempts evs = 1 /\ exists err, result = SendFailure err).
Proof.
  intros Hfuel. destruct fuel as [|[|fuel]]; [lia..|]. unfold sendMessage.
  apply (wp_run _ (fun x => exists result evs,
                       x = (Normal (Some result), evs) /\ _)).
  eapply wp_mono; [|apply sendLoop_first; lia].
  intros r [] evs (result & -> & Hn & Hfirst). simpl.
  exists result, evs. split; [done|]. split; [done|]. split.
  - intros Hall. destruct (Hall 0) as (e0 & Hp0 & Hc0).
    destruct (Hall 1) as (e1 & Hp1 & _).
    specialize (Hfirst e0 Hp0). apply isNetworkError_iff in Hc0.
    rewrite Hc0 in Hfirst. destruct Hfirst as [Hn2 Hres]. eauto.
  - intros e Hp Hc Hto. specialize (Hfirst e Hp).
    by rewrite (client_error_not_network e Hc Hto) in Hfirst.
Qed.

Lemma sendMessage_outcome_witness :
  2 <= 2 /\
  exists result evs,
    run (sendMessage always_aborted test_env 2 (JString "user_123")
           (JString "Test"))
    = (Normal (Some result), evs) /\
    attempts evs = 2 /\ exists err, result = SendFailure err.
Proof.
  split; [lia|].
  destruct (sendMessage_outcome always_aborted test_env 2 (JString "user_123")
              (JString "Test") (le_n 2))
    as (result & evs & Hrun & _ & Hconn & _).
  exists result, evs. split; [exact Hrun|].
  apply Hconn. intros n. eexists. split; [reflexivity|].
  right. left. reflexivity.
Defined.

(** The tests of instagramService.test.js. *)
Example sendMessage_tests :
  let send post := run (sendMessage post test_env 2 (JString "user_123")
                          (JString "Test")) in
  fst (send always_bad_request)
  = Normal (Some (SendFailure (JString "Invalid recipient ID"))) /\
  attempts (snd (send always_bad_request)) = 1 /\
  fst (send aborted_once) = Normal (Some (SendSuccess (JString "msg_789"))) /\
  attempts (snd (send aborted_once)) = 2 /\
  fst (send always_aborted)
  = Normal (Some (SendFailure (JString "Connection aborted"))) /\
  attempts (snd (send always_aborted)) = 2.
Proof. repeat split; vm_compute; reflexivity. Qed.

(** ** The orchestrator *)

Lemma run_inv {A} (c : M unit A) (r : completion A) (evs : list Event) :
  run c = (r, evs) -> c tt = (r, tt, evs).
Proof. unfold run. destruct (c tt) as [[r' []] evs']. by intros [= -> ->]. Qed.

Local Arguments shouldReplyToMessage : simpl never.

Section Pipeline.
Variable parse : value -> M unit (option ParsedMessage).
Variable generate : value -> M unit value.
Variable send : value -> value -> M unit SendResult.
Variable env : Env.

(** C2. For every payload and every behaviour of the parser, the
    generator and the delivery client, throwing included,
    [processWebhookEvent] ends normally: whatever the body of its [try]
    throws is caught, logged at error level with the ids known so far, and
    swallowed. *)
Theorem processWebhookEvent_never_throws (payload : value) :
  exists evs,
    run (processWebhookEvent parse generate send env payload)
    = (Normal tt, evs) /\
    forall e l evs0,
      processWebhookEvent_try parse generate send env payload initial_locals
      = (Thrown e, l, evs0) ->
      evs = (evs0 ++ [error_line e l])%list.
Proof.
  unfold run, processWebhookEvent, with_locals, try_catch.
  fold initial_locals.
  destruct (processWebhookEvent_try parse generate send env payload
              initial_locals) as [[[[]|e] l] evs0]; simpl.
  - eexists; split; [reflexivity|]. intros ? ? ? [=].
  - eexists; split; [reflexivity|]. by intros ? ? ? [= <- <- <-].
Qed.

(** C5. When the event parses to a message that passes the filter and
    the generator throws, [processWebhookEvent] logs its lines up to the
    generator call, then what the generator emitted, then one error-level
    line with the messageId and senderId of the message, and stops: the
    trace holds nothing of the delivery client, whatever it would do. *)
Theorem generator_failure_stops (payload : value) (pm : ParsedMessage)
    (e : JsError) (evsP evsG : list Event) :
  run (parse payload) = (Normal (Some pm), evsP) ->
  fst (run (shouldReplyToMessage (Some pm) (env_value (BOT_INSTAGRAM_ID env))))
  = Normal true ->
  run (generate (messageText pm)) = (Thrown e, evsG) ->
  run (processWebhookEvent parse generate send env payload)
  = (Normal tt,
     received_line payload :: evsP
     ++ [parsed_line pm; filter_line (Some pm) None; passed_line pm]
     ++ evsG
     ++ [error_line e (mkLocals (messageId pm) (senderId pm))])%list.
Proof.
  intros Hparse%run_inv Hreply%shouldReply_accepts Hgen%run_inv.
  apply (wp_run _ (fun x => x = _)).
  unfold processWebhookEvent, processWebhookEvent_try.
  repeat (first [ wp_step
                | eapply wp_known; [exact Hparse|]
                | eapply wp_known; [exact Hgen|]
                | eapply wp_known;
                    [rewrite shouldReply_locals, Hreply; reflexivity|] ];
          simpl).
  by rewrite <- ?app_assoc.
Qed.

End Pipeline.

Lemma generator_failure_stops_witness :
  run (processWebhookEvent messageParser.parseWebhookEvent failing_generator
         (delivery always_aborted test_env) test_env envelope_message)
  = (Normal tt,
     [received_line envelope_message; parsed_line parsed_message;
      filter_line (Some parsed_message) None; passed_line parsed_message;
      error_line (Error "Failed to generate AI response")
        (mkLocals (JString "MSG_789") (JString "SENDER_123"))]).
Proof.
  refine (generator_failure_stops messageParser.parseWebhookEvent
            failing_generator (delivery always_aborted test_env) test_env
            envelope_message parsed_message
            (Error "Failed to generate AI response") [] [] _ _ _);
    vm_compute; reflexivity.
Defined.

(** Scenario A end to end: the message is parsed and accepted, the
    generator answers, and the reply is posted once and delivered. *)
Example scenario_delivered :
  let trace :=
    snd (run (processWebhookEvent messageParser2.parseWebhookEvent
                fixed_generator (delivery aborted_once test_env) test_env
                envelope_message)) in
  attempts trace = 2 /\
  last trace
  = Some (Logged (mkLog INFO (Text "Message processed successfully") None
                    [("messageId", Val (JString "MSG_789"));
                     ("senderId", Val (JString "SENDER_123"));
                     ("instagramMessageId", Val (JString "msg_789"))])).
Proof. split; vm_compute; reflexivity. Qed.

(** A step that throws: the parser before any id is known, the delivery
    client after the reply was generated. Either way the run ends
    normally and its last line is the error line. *)
Example scenario_throwing_steps :
  run (processWebhookEvent (fun _ => throw (TypeError "boom")) fixed_generator
         (delivery always_aborted test_env) test_env envelope_message)
  = (Normal tt,
     [received_line envelope_message;
      error_line (TypeError "boom") initial_locals]) /\
  (let r := run (processWebhookEvent messageParser.parseWebhookEvent
                   fixed_generator (fun _ _ => throw (Error "socket hang up"))
                   test_env envelope_message) in
   fst r = Normal tt /\
   last (snd r)
   = Some (error_line (Error "socket hang up")
             (mkLocals (JString "MSG_789") (JString "SENDER_123")))).
Proof. repeat split; vm_compute; reflexivity. Qed.

(** Scenario B: a message of the bot itself is filtered, and nothing is
    generated or posted. *)
Example scenario_echo :
  run (processWebhookEvent messageParser2.parseWebhookEvent fixed_generator
         (delivery always_aborted test_env)
         (mkEnv None None (Some "SENDER_123")) envelope_message)
  = (Normal tt,
     [received_line envelope_message; parsed_line parsed_message;
      filter_line (Some parsed_message) (Some Echo);
      Logged (mkLog DEBUG (Text "Message filtered - no reply needed") None
                (ids parsed_message))]).
Proof. vm_compute. reflexivity. Qed.

(** * Further properties *)

(** ** The parsers *)

Lemma parse2_none (payload : value) :
  let ev := first_event payload in
  let change := first_change payload in
  truthy (member ev "message") = false ->
  truthy (member ev "message_edit") = false ->
  has_messaging payload = true \/
  strict_eq_string (member change "field") "messages"
  && truthy (member change "value") = false ->
  wp (messageParser2.parseWebhookEvent payload) tt (fun r _ _ => r = Normal None).
Proof.
  intros ev change Hm He H. subst ev change.
  unfold has_messaging, first_change, first_event, first_entry in *.
  unfold_parsers.
  repeat (wp_step; simpl; try done).
  all: truthy_hyps; try congruence.
  all: destruct H as [H|H]; try congruence.
  all: try (apply andb_false_iff in H as [H|H]; congruence).
Qed.

Lemma parse_closed_form (payload : value) :
  fst (run (messageParser.parseWebhookEvent payload))
  = Normal (closed_form payload).
Proof.
  apply wp_returns. unfold closed_form.
  destruct (truthy (member (first_event payload) "message")) eqn:Hm; simpl.
  - by apply parse_message.
  - apply parse_none. auto.
Qed.

Lemma parse2_closed_form (payload : value) :
  fst (run (messageParser2.parseWebhookEvent payload))
  = Normal (closed_form2 payload).
Proof.
  apply wp_returns. unfold closed_form2.
  destruct (truthy (member (first_event payload) "message")) eqn:Hm.
  { by apply parse2_message. }
  destruct (truthy (member (first_event payload) "message_edit")) eqn:He.
  { by apply parse2_edit. }
  destruct (has_messaging payload) eqn:Hh.
  { apply parse2_none; auto. }
  destruct (strict_eq_string (member (first_change payload) "field") "messages"
            && truthy (member (first_change payload) "value")) eqn:Hc.
  - apply andb_true_iff in Hc as [Hf Hv].
    apply strict_eq_string_true in Hf. by apply parse2_changes.
  - apply parse2_none; auto.
Qed.

(** Neither parser posts anything. *)
Lemma parse_no_posts (payload : value) :
  attempts (snd (run (messageParser.parseWebhookEvent payload))) = 0 /\
  attempts (snd (run (messageParser2.parseWebhookEvent payload))) = 0.
Proof.
  split; apply (wp_run _ (fun x => attempts (snd x) = 0)); unfold_parsers;
    repeat (wp_step; simpl; try done).
Qed.

(** X1. Only the first messaging event of the first entry is read: two
    envelopes with the same first event are parsed alike by
    messageParser.js, whatever else they hold (later events, later
    entries); the parser of both shapes reads, besides, whether there is
    a messaging list and the first change. *)
Theorem parse_reads_first_event (payload payload' : value) :
  first_event payload = first_event payload' ->
  fst (run (messageParser.parseWebhookEvent payload))
  = fst (run (messageParser.parseWebhookEvent payload')) /\
  (has_messaging payload = has_messaging payload' ->
   first_change payload = first_change payload' ->
   fst (run (messageParser2.parseWebhookEvent payload))
   = fst (run (messageParser2.parseWebhookEvent payload'))).
Proof.
  intros Hev. split.
  - rewrite !parse_closed_form. unfold closed_form. by rewrite Hev.
  - intros Hh Hc. rewrite !parse2_closed_form. unfold closed_form2.
    by rewrite Hev, Hh, Hc.
Qed.

Lemma parse_reads_first_event_witness :
  fst (run (messageParser.parseWebhookEvent envelope_batch))
  = fst (run (messageParser.parseWebhookEvent envelope_message)) /\
  fst (run (messageParser2.parseWebhookEvent envelope_batch))
  = fst (run (messageParser2.parseWebhookEvent envelope_message)).
Proof.
  split.
  - refine (proj1 (parse_reads_first_event envelope_batch envelope_message _)).
    vm_compute. reflexivity.
  - refine (proj2 (parse_reads_first_event envelope_batch envelope_message _)
              _ _); vm_compute; reflexivity.
Defined.

Lemma closed_form_extends (payload : value) (pm : ParsedMessage) :
  closed_form payload = Some pm -> closed_form2 payload = Some pm.
Proof.
  unfold closed_form, closed_form2.
  destruct (truthy (member (first_event payload) "message")); simpl; [|done].
  destruct (truthy (member (first_event payload) "timestamp")); done.
Qed.

(** X2. The parser of both envelope shapes extends the one of
    messageParser.js: whatever the latter accepts, the former accepts with
    the same result. *)
Theorem parse2_extends_parse (payload : value) (pm : ParsedMessage) :
  fst (run (messageParser.parseWebhookEvent payload)) = Normal (Some pm) ->
  fst (run (messageParser2.parseWebhookEvent payload)) = Normal (Some pm).
Proof.
  rewrite parse_closed_form, parse2_closed_form.
  intros [= Hpm]. f_equal. by apply closed_form_extends.
Qed.

Lemma parse2_extends_parse_witness :
  fst (run (messageParser2.parseWebhookEvent envelope_message))
  = Normal (Some parsed_message).
Proof.
  apply (parse2_extends_parse envelope_message parsed_message).
  vm_compute. reflexivity.
Defined.

Lemma assemble_attachments (s m : value) (t : Timestamp) (pm : ParsedMessage) :
  assemble s m t = Some pm ->
  hasAttachments pm = nonempty_array (member m "attachments").
Proof.
  unfold assemble. case_match; [|done]. intros [= <-]. simpl.
  by destruct (member m "attachments") as [| | | | |[|? ?]|].
Qed.

Lemma assemble_sender (s m : value) (t : Timestamp) (pm : ParsedMessage) :
  assemble s m t = Some pm -> senderId pm = s.
Proof. unfold assemble. case_match; [|done]. by intros [= <-]. Qed.

Lemma has_messaging_event (payload : value) (k : string) :
  truthy (member (first_event payload) k) = true -> has_messaging payload = true.
Proof.
  unfold has_messaging, first_event.
  destruct (member (first_entry payload) "messaging") as [| | | | |[|? ?]|]; done.
Qed.

(** X3. The flag [hasAttachments] of a parsed message tells exactly
    whether the attachments the envelope carries are a non-empty array;
    anything else there (an empty array, an object, a string) gives
    [false]. *)
Theorem parse_attachments (payload : value) (pm : ParsedMessage) :
  (fst (run (messageParser.parseWebhookEvent payload)) = Normal (Some pm) ->
   hasAttachments pm = nonempty_array (carried_attachments payload)) /\
  (fst (run (messageParser2.parseWebhookEvent payload)) = Normal (Some pm) ->
   hasAttachments pm = nonempty_array (carried_attachments2 payload)).
Proof.
  split.
  - rewrite parse_closed_form. unfold closed_form, carried_attachments.
    case_match; [|done]. intros [= Hpm]. by apply assemble_attachments in Hpm.
  - rewrite parse2_closed_form. unfold closed_form2, carried_attachments2.
    destruct (truthy (member (first_event payload) "message")) eqn:Hm.
    { rewrite (has_messaging_event _ _ Hm). intros [= Hpm].
      by apply assemble_attachments in Hpm. }
    destruct (truthy (member (first_event payload) "message_edit")) eqn:He.
    { rewrite (has_messaging_event _ _ He). intros [= Hpm].
      by apply assemble_attachments in Hpm. }
    destruct (has_messaging payload); [done|].
    case_match; [|done]. case_match; [done|].
    intros [= Hpm]. by apply assemble_attachments in Hpm.
Qed.

Lemma parse_attachments_witness :
  hasAttachments parsed_attachment
  = nonempty_array (carried_attachments envelope_attachment) /\
  hasAttachments parsed_attachment
  = nonempty_array (carried_attachments2 envelope_attachment).
Proof.
  split.
  - refine (proj1 (parse_attachments envelope_attachment parsed_attachment) _).
    vm_compute. reflexivity.
  - refine (proj2 (parse_attachments envelope_attachment parsed_attachment) _).
    vm_compute. reflexivity.
Defined.

(** X4. The parser of messageParser.js accepts an envelope exactly when
    its first messaging event has a message, a sender id, a timestamp and
    a message id, each of them truthy: a timestamp of 0 or a message id
    that is the empty string makes the envelope invalid. *)
Theorem parse_accepts_iff (payload : value) :
  let ev := first_event payload in
  (exists pm,
     fst (run (messageParser.parseWebhookEvent payload)) = Normal (Some pm))
  <-> truthy (member ev "message") = true /\
      truthy (member (member ev "sender") "id") = true /\
      truthy (member ev "timestamp") = true /\
      truthy (member (member ev "message") "mid") = true.
Proof.
  intros ev. rewrite parse_closed_form. unfold closed_form, assemble. fold ev.
  destruct (truthy (member ev "message")),
           (truthy (member (member ev "sender") "id")),
           (truthy (member ev "timestamp")),
           (truthy (member (member ev "message") "mid")); simpl;
    split; try (by intros (? & [=])); try (by intros (? & ? & ? & ?));
    try (by intros; eexists).
Qed.

Lemma assemble_timestamp (s m : value) (t : Timestamp) (pm : ParsedMessage) :
  assemble s m t = Some pm -> timestamp pm = t.
Proof. unfold assemble. case_match; [|done]. by intros [= <-]. Qed.

(** X5. The timestamp of a parsed message is the one the first messaging
    event carries, as it is; with messageParser.js it is truthy. In the
    field-change shape it is what [parseInt] makes of the carried
    timestamp, and [null] when that is falsy. *)
Theorem parse_timestamp (payload : value) (pm : ParsedMessage) :
  (fst (run (messageParser.parseWebhookEvent payload)) = Normal (Some pm) ->
   timestamp pm = Raw (member (first_event payload) "timestamp") /\
   truthy (member (first_event payload) "timestamp") = true) /\
  (fst (run (messageParser2.parseWebhookEvent payload)) = Normal (Some pm) ->
   timestamp pm = carried_timestamp2 payload).
Proof.
  split.
  - rewrite parse_closed_form. unfold closed_form.
    destruct (truthy (member (first_event payload) "message")); [|done].
    destruct (truthy (member (first_event payload) "timestamp")); [|done].
    intros [= Hpm]. by apply assemble_timestamp in Hpm.
  - rewrite parse2_closed_form. unfold closed_form2, carried_timestamp2.
    destruct (truthy (member (first_event payload) "message")) eqn:Hm.
    { rewrite (has_messaging_event _ _ Hm). intros [= Hpm].
      by apply assemble_timestamp in Hpm. }
    destruct (truthy (member (first_event payload) "message_edit")) eqn:He.
    { rewrite (has_messaging_event _ _ He). intros [= Hpm].
      by apply assemble_timestamp in Hpm. }
    destruct (has_messaging payload); [done|].
    case_match; [|done]. case_match; [done|].
    intros [= Hpm]. by apply assemble_timestamp in Hpm.
Qed.

Lemma parse_timestamp_witness :
  timestamp parsed_message = Raw (JNumber 1234567890) /\
  timestamp parsed_changes = ParseInt (JString "1234567890").
Proof.
  split.
  - refine (proj1 (proj1 (parse_timestamp envelope_message parsed_message) _)).
    vm_compute. reflexivity.
  - refine (proj2 (parse_timestamp envelope_changes parsed_changes) _).
    vm_compute. reflexivity.
Defined.

(** ** The delivery client *)

Section SendClosed.
Variable post : nat -> PostOutcome.
Variable env : Env.
Variables recipientId messageText : value.

Ltac send_step :=
  first [ wp_step
        | match goal with
          | |- wp (axios_post _ _ _ _) _ _ => unfold axios_post
          | |- wp (match post ?n with _ => _ end) _ _ =>
              let E := fresh "Hpost" in destruct (post n) eqn:E
          end ].

Ltac only_posts_tac :=
  unfold only_posts, send_post;
  repeat first [ apply Forall_nil_2
               | apply Forall_cons; split; [simpl; by intros|] ].

Lemma sendLoop_last_closed (fuel : nat) :
  wp (sendLoop post env (S fuel) 1 recipientId messageText) tt
    (fun r _ evs => r = Normal (Some (final_result (post 1))) /\
       attempts evs = 1 /\
       only_posts (send_post env recipientId messageText) evs).
Proof.
  simpl. unfold maxRetries, final_result, attempt_result, failure_of.
  repeat (send_step; simpl in *; rewrite ?andb_false_r in *; try done;
          try congruence).
  all: repeat match goal with H : nullish _ = _ |- _ => rewrite H end.
  all: split; [reflexivity|]; split; [reflexivity|]; only_posts_tac.
Qed.

Lemma only_posts_app (p : Event) (evs evs' : list Event) :
  only_posts p evs -> only_posts p evs' -> only_posts p (evs ++ evs').
Proof. unfold only_posts. rewrite Forall_app. auto. Qed.

Lemma sendLoop_first_closed (fuel : nat) :
  1 <= fuel ->
  wp (sendLoop post env (S fuel) 0 recipientId messageText) tt
    (fun r _ evs => r = Normal (Some (fst (send_closed post))) /\
       attempts evs = snd (send_closed post) /\
       only_posts (send_post env recipientId messageText) evs).
Proof.
  intros Hfuel. cbn [sendLoop].
  unfold maxRetries, send_closed, attempt_result, failure_of.
  repeat (send_step; cbn -[sendLoop] in *; rewrite ?andb_true_r in *;
          try done; try congruence).
  all: repeat match goal with
              | H : nullish _ = _ |- _ => rewrite H
              | H : isNetworkError _ = _ |- _ => rewrite H
              end; cbn -[sendLoop].
  all: try (destruct fuel as [|fuel]; [lia|];
            eapply wp_mono; [|apply sendLoop_last_closed];
            intros r [] evs (-> & Hn & Hp); simpl;
            split; [reflexivity|]; split;
            [unfold attempts in *; simpl; by rewrite Hn|];
            only_posts_tac; exact Hp).
  all: split; [reflexivity|]; split; [reflexivity|]; only_posts_tac.
Qed.

(** The result and the POSTs of [sendMessage], for any remote side. *)
Lemma sendMessage_closed (fuel : nat) :
  2 <= fuel ->
  exists evs,
    run (sendMessage post env fuel recipientId messageText)
    = (Normal (Some (fst (send_closed post))), evs) /\
    attempts evs = snd (send_closed post) /\
    only_posts (send_post env recipientId messageText) evs.
Proof.
  intros Hfuel. destruct fuel as [|fuel]; [lia|]. unfold sendMessage.
  apply (wp_run _ (fun x => exists evs, x = (_, evs) /\ _)).
  eapply wp_mono; [|apply sendLoop_first_closed; lia].
  intros r [] evs (-> & Hn & Hp). simpl. by exists evs.
Qed.

(** The same for the client as the orchestrator calls it. *)
Lemma delivery_closed :
  exists evs,
    run (delivery post env recipientId messageText)
    = (Normal (fst (send_closed post)), evs) /\
    attempts evs = snd (send_closed post) /\
    only_posts (send_post env recipientId messageText) evs.
Proof.
  destruct (sendMessage_closed (maxRetries + 1)) as (evs & Hrun & Hn & Hp);
    [unfold maxRetries; lia|].
  exists evs. split; [|done]. apply run_inv in Hrun.
  apply (wp_run _ (fun x => x = _)). unfold delivery.
  wp_step. eapply wp_known; [exact Hrun|]. simpl. wp_step.
  by rewrite app_nil_r.
Qed.

(** X6. All the POSTs of one call of [sendMessage] are the same request:
    the messages endpoint of the Graph API, the configured access token
    and a body with the recipient and the text as they were passed; a
    retry changes nothing of it. *)
Theorem sendMessage_requests (fuel : nat) :
  2 <= fuel ->
  only_posts (send_post env recipientId messageText)
    (snd (run (sendMessage post env fuel recipientId messageText))).
Proof.
  intros Hfuel. destruct (sendMessage_closed fuel Hfuel) as (evs & -> & _ & Hp).
  exact Hp.
Qed.

(** X7. A rejection that carries a response and no timeout code is never
    retried, whatever the status of the response (a 500 or a 503 as well
    as a 4xx): one POST is made, and the failure holds the message of the
    error body, else the message of the error, else the text
    Unknown error. *)
Theorem answered_failure_is_final (fuel : nat) (error : JsError)
    (response : AxiosResponse) :
  2 <= fuel ->
  post 0 = Rejected error ->
  err_response error = Some response ->
  ~ timed_out error ->
  exists evs,
    run (sendMessage post env fuel recipientId messageText)
    = (Normal (Some (failure_of error)), evs) /\
    attempts evs = 1.
Proof.
  intros Hfuel Hpost Hresp Hto.
  destruct (sendMessage_closed fuel Hfuel) as (evs & Hrun & Hn & _).
  assert (isNetworkError error = false) as Hnet.
  { apply not_true_is_false. rewrite isNetworkError_iff.
    unfold connectivity_failure. intros [H|H]; [congruence|done]. }
  unfold send_closed in *. rewrite Hpost in *. simpl in *. rewrite Hnet in *.
  by exists evs.
Qed.

(** X8. A POST that resolves with a body that is [null] or [undefined] is
    taken for a network error: reading the message id throws inside the
    [try], the error has no response, and the message is posted a second
    time; the second attempt decides the result. *)
Theorem empty_body_is_retried (fuel : nat) (response : AxiosResponse) :
  2 <= fuel ->
  post 0 = Resolved response ->
  nullish (data response) = true ->
  exists evs,
    run (sendMessage post env fuel recipientId messageText)
    = (Normal (Some (final_result (post 1))), evs) /\
    attempts evs = 2.
Proof.
  intros Hfuel Hpost Hbody.
  destruct (sendMessage_closed fuel Hfuel) as (evs & Hrun & Hn & _).
  unfold send_closed in *. rewrite Hpost in *. simpl in *. rewrite Hbody in *.
  by exists evs.
Qed.

(** X9. A POST that resolves with any other body is a success after one
    attempt, whatever the body holds: the message id is its [message_id]
    if that is truthy and its [id] otherwise, which may be [undefined]. *)
Theorem resolved_body_is_success (fuel : nat) (response : AxiosResponse) :
  2 <= fuel ->
  post 0 = Resolved response ->
  nullish (data response) = false ->
  exists evs,
    run (sendMessage post env fuel recipientId messageText)
    = (Normal (Some (SendSuccess (js_or (member (data response) "message_id")
                                        (member (data response) "id")))),
       evs) /\
    attempts evs = 1.
Proof.
  intros Hfuel Hpost Hbody.
  destruct (sendMessage_closed fuel Hfuel) as (evs & Hrun & Hn & _).
  unfold send_closed in *. rewrite Hpost in *. simpl in *. rewrite Hbody in *.
  by exists evs.
Qed.

(** X10. After a first attempt that fails in the connectivity class the
    second attempt decides, whatever it comes to: its success is
    returned, and its failure is returned without a third attempt, also
    when it is a connectivity failure again. *)
Theorem second_attempt_decides (fuel : nat) (error : JsError) :
  2 <= fuel ->
  post 0 = Rejected error ->
  connectivity_failure error ->
  exists evs,
    run (sendMessage post env fuel recipientId messageText)
    = (Normal (Some (final_result (post 1))), evs) /\
    attempts evs = 2.
Proof.
  intros Hfuel Hpost Hnet%isNetworkError_iff.
  destruct (sendMessage_closed fuel Hfuel) as (evs & Hrun & Hn & _).
  unfold send_closed in *. rewrite Hpost in *. simpl in *. rewrite Hnet in *.
  by exists evs.
Qed.

Lemma failure_of_truthy (error : JsError) (err : value) :
  failure_of error = SendFailure err -> truthy err = true.
Proof.
  unfold failure_of, js_or. intros [= <-].
  destruct (truthy (response_error_message error)) eqn:H1; rewrite ?H1; [done|].
  destruct (truthy (err_message error)) eqn:H2; rewrite ?H2; done.
Qed.

Lemma attempt_result_success (outcome : PostOutcome) (err : value) :
  attempt_result outcome <> inl (SendFailure err).
Proof. unfold attempt_result. repeat case_match; congruence. Qed.

(** X11. The description of a failure is never empty: whatever the remote
    side does, the [error] of a failed [sendMessage] is a truthy value. *)
Theorem failure_description_truthy (fuel : nat) (err : value) :
  2 <= fuel ->
  fst (run (sendMessage post env fuel recipientId messageText))
  = Normal (Some (SendFailure err)) ->
  truthy err = true.
Proof.
  intros Hfuel. destruct (sendMessage_closed fuel Hfuel) as (evs & -> & _ & _).
  simpl. unfold send_closed, final_result.
  repeat case_match; simpl; intros [= Hres]; simplify_eq;
    eauto using failure_of_truthy.
  all: by edestruct attempt_result_success.
Qed.

End SendClosed.

Lemma sendMessage_requests_witness :
  only_posts (send_post test_env (JString "user_123") (JString "Hello"))
    (snd (run (sendMessage always_aborted test_env 2 (JString "user_123")
                 (JString "Hello")))).
Proof.
  apply (sendMessage_requests always_aborted test_env (JString "user_123")
           (JString "Hello") 2).
  lia.
Defined.

Lemma answered_failure_is_final_witness :
  exists evs,
    run (sendMessage always_unavailable test_env 2 (JString "user_123")
           (JString "Hello"))
    = (Normal (Some (SendFailure
                       (JString "Request failed with status code 503"))), evs) /\
    attempts evs = 1.
Proof.
  refine (answered_failure_is_final always_unavailable test_env
            (JString "user_123") (JString "Hello") 2 _ _ _ eq_refl eq_refl _);
    [lia|].
  intros [H|H]; discriminate H.
Defined.

Lemma empty_body_is_retried_witness :
  exists evs,
    run (sendMessage empty_body_once test_env 2 (JString "user_123")
           (JString "Hello"))
    = (Normal (Some (SendSuccess (JString "msg_789"))), evs) /\
    attempts evs = 2.
Proof.
  refine (empty_body_is_retried empty_body_once test_env (JString "user_123")
            (JString "Hello") 2 _ _ eq_refl _); [lia|reflexivity].
Defined.

Lemma resolved_body_is_success_witness :
  exists evs,
    run (sendMessage always_without_id test_env 2 (JString "user_123")
           (JString "Hello"))
    = (Normal (Some (SendSuccess JUndefined)), evs) /\
    attempts evs = 1.
Proof.
  refine (resolved_body_is_success always_without_id test_env
            (JString "user_123") (JString "Hello") 2 _ _ eq_refl _);
    [lia|reflexivity].
Defined.

Lemma second_attempt_decides_witness :
  exists evs,
    run (sendMessage aborted_once test_env 2 (JString "user_123")
           (JString "Hello"))
    = (Normal (Some (SendSuccess (JString "msg_789"))), evs) /\
    attempts evs = 2.
Proof.
  refine (second_attempt_decides aborted_once test_env (JString "user_123")
            (JString "Hello") 2 _ _ eq_refl _); [lia|].
  left. reflexivity.
Defined.

Lemma failure_description_truthy_witness :
  truthy (JString "Invalid recipient ID") = true.
Proof.
  apply (failure_description_truthy always_bad_request test_env
           (JString "user_123") (JString "Hello") 2); [lia|].
  vm_compute. reflexivity.
Defined.

(** ** The reply generator *)

Lemma wp_js_length {S} (v : value) (s : S) Q :
  (nullish v = true ->
   Q (Thrown (TypeError
                "Cannot read properties of null or undefined: length")) s []) ->
  (nullish v = false -> Q (Normal (length_value v)) s []) ->
  wp (js_length v) s Q.
Proof. destruct v; simpl; intros H1 H2; first [by apply H1 | by apply H2]. Qed.

(** [choices[0].message] and [content.trim()] return a value or throw;
    they log nothing. *)
Lemma wp_first_message {S} (choices : value) (s : S) Q :
  (forall e, Q (Thrown e) s []) -> (forall v, Q (Normal v) s []) ->
  wp (aiService.first_message choices) s Q.
Proof.
  intros Ht Hn. destruct choices as [| | | |[|? ?]| |]; simpl;
    repeat (wp_step; simpl); auto.
Qed.

Lemma wp_call_trim {S} (content : value) (s : S) Q :
  (forall e, Q (Thrown e) s []) -> (forall t, Q (Normal t) s []) ->
  wp (aiService.call_trim content) s Q.
Proof.
  intros Ht Hn. destruct content; simpl; repeat (wp_step; simpl); auto.
Qed.

Ltac generate_step :=
  first [ wp_step
        | match goal with
          | |- wp (aiService.axios_post _ _ _) _ _ =>
              unfold aiService.axios_post
          | |- wp (match ?p with Resolved _ => _ | Rejected _ => _ end) _ _ =>
              destruct p
          | |- wp (js_length _) _ _ => apply wp_js_length; intros ?
          | |- wp (aiService.first_message _) _ _ =>
              apply wp_first_message; intros ?
          | |- wp (aiService.call_trim _) _ _ => apply wp_call_trim; intros ?
          end ].

Lemma generateResponse_wp (post : PostOutcome) (key : option string)
    (messageText : value) :
  wp (aiService.generateResponse post key messageText) tt
    (fun r _ evs => generated (generate_post key messageText) r evs).
Proof.
  unfold aiService.generateResponse, generated, generate_post.
  repeat (generate_step; simpl; try done).
  all: split; [unfold attempts; simpl; lia|].
  all: split;
    [unfold only_posts;
     repeat first [ apply Forall_nil_2
                  | apply Forall_cons; split; [simpl; by intros|] ]|].
  all: first [ left; by eexists | right; split; [done|]; by eexists ].
Qed.

(** X12. [generateResponse] ends in one of two ways, whatever the text and
    whatever the remote side answers: it returns a string, or it throws
    the one error Failed to generate AI response after logging it as its
    last line. No other error leaves it (not the error of the POST, not
    the TypeError of a malformed completion or of a text without
    length), and it makes at most one POST, to the completions
    endpoint. *)
Theorem generateResponse_outcomes (post : PostOutcome) (key : option string)
    (messageText : value) :
  generated (generate_post key messageText)
    (fst (run (aiService.generateResponse post key messageText)))
    (snd (run (aiService.generateResponse post key messageText))).
Proof.
  apply (wp_run _ (fun x => generated _ (fst x) (snd x))), generateResponse_wp.
Qed.

Ltac generate_eval :=
  first [ wp_step
        | match goal with
          | |- wp (aiService.axios_post _ _ _) _ _ =>
              unfold aiService.axios_post
          | |- wp (js_length ?v) _ _ => destruct v
          | |- wp (aiService.first_message ?c) _ _ =>
              let s := fresh "s" in
              destruct c as [| | | |s| |]; [| | | |destruct s| |]
          | |- wp (aiService.call_trim ?c) _ _ => destruct c
          end ].

(** X13. When the POST resolves with a completion whose first choice holds
    a string content, [generateResponse] returns that content trimmed of
    the white space at both ends, after exactly one POST: the request
    with the model, the system prompt, the text as the user message, and
    the API key as the bearer. *)
Theorem generateResponse_completion (response : AxiosResponse)
    (key : option string) (messageText choice : value) (rest : list value)
    (content : string) :
  nullish messageText = false ->
  member (data response) "choices" = JArray (choice :: rest) ->
  member (member choice "message") "content" = JString content ->
  exists evs,
    run (aiService.generateResponse (Resolved response) key messageText)
    = (Normal (JString (Strings.trim content)), evs) /\
    List.filter is_post evs = [generate_post key messageText].
Proof.
  intros Hm Hc Hcontent.
  apply (wp_run _ (fun x => exists evs, x = (_, evs) /\ _)).
  destruct response as [st stt d]. simpl in *.
  invert_paths. unfold aiService.generateResponse, generate_post.
  destruct messageText; try discriminate.
  all: repeat (generate_eval; invert_paths; try done).
  all: by eexists.
Qed.

Lemma generateResponse_completion_witness :
  exists evs,
    run (aiService.generateResponse (completion_of (JString untrimmed_reply))
           (Some "test-api-key") (JString "Hi"))
    = (Normal (JString "Hey! How are you?"), evs) /\
    List.filter is_post evs = [generate_post (Some "test-api-key") (JString "Hi")].
Proof.
  refine (generateResponse_completion _ (Some "test-api-key") (JString "Hi")
            (obj [("message", obj [("content", JString untrimmed_reply)])])
            [] untrimmed_reply _ _ _); vm_compute; reflexivity.
Defined.

(** Tests of the generator: a completion to trim, a timeout, a 400. *)
Example generateResponse_tests :
  fst (run (aiService.generateResponse (completion_of (JString untrimmed_reply))
              (Some "test-api-key") (JString "Hi")))
  = Normal (JString "Hey! How are you?") /\
  fst (run (aiService.generateResponse (aborted_once 0) (Some "test-api-key")
              (JString "Hello")))
  = Thrown (Error "Failed to generate AI response") /\
  fst (run (aiService.generateResponse (always_bad_request 0)
              (Some "test-api-key") (JString "Hello")))
  = Thrown (Error "Failed to generate AI response").
Proof. repeat split; vm_compute; reflexivity. Qed.

(** ** The orchestrator *)

Ltac trace_eq :=
  repeat (progress (rewrite ?app_nil_r, <- ?app_assoc; simpl)); done.

(** The filter returns, and logs one line. *)
Lemma shouldReply_line {S} (s : S) (parsedMessage : option ParsedMessage)
    (botInstagramId : value) :
  exists reply l,
    shouldReplyToMessage parsedMessage botInstagramId s
    = (Normal reply, s, [Logged l]).
Proof.
  unfold shouldReplyToMessage. destruct parsedMessage as [pm|]; [|by eexists _, _].
  destruct (strict_eq (messageText pm) JNull); [by eexists _, _|].
  destruct (hasAttachments pm); [by eexists _, _|].
  destruct (strict_eq (senderId pm) botInstagramId); by eexists _, _.
Qed.

Lemma wp_unknown {A} (c : M unit A) Q :
  (forall r evs, run c = (r, evs) -> Q r tt evs) -> wp c tt Q.
Proof.
  unfold wp, run. destruct (c tt) as [[r []] evs]. intros H. by apply H.
Qed.

Ltac pipeline_step :=
  first [ wp_step
        | match goal with
          | H : ?c tt = _ |- wp ?c tt _ => eapply wp_known; [exact H|]
          | |- wp (js_length _) _ _ => apply wp_js_length; intros ?
          | |- wp (shouldReplyToMessage _ _) _ _ =>
              eapply wp_known; [apply shouldReply_locals|]
          | |- wp (match ?r with SendSuccess _ => _ | SendFailure _ => _ end) _ _ =>
              destruct r
          end ].

Ltac run_pipeline :=
  apply (wp_run _ (fun x => x = _));
  unfold processWebhookEvent, processWebhookEvent_try;
  repeat (pipeline_step; simpl).

Section Traces.
Variable parse : value -> M unit (option ParsedMessage).
Variable generate : value -> M unit value.
Variable send : value -> value -> M unit SendResult.
Variable env : Env.

(** X14. An envelope the parser finds invalid ends the run at once: after
    the lines of the parser one DEBUG line tells that the payload was
    invalid, the run ends normally, and neither the filter, the generator
    nor the delivery client is reached. *)
Theorem invalid_event_stops (payload : value) (evsP : list Event) :
  run (parse payload) = (Normal None, evsP) ->
  run (processWebhookEvent parse generate send env payload)
  = (Normal tt, received_line payload :: evsP ++ [failed_parse_line])%list.
Proof. intros Hparse%run_inv. run_pipeline. done. Qed.

(** X15. A message the filter rejects ends the run after the line of the
    filter and one DEBUG line that tells no reply is needed: the run ends
    normally, and neither the generator nor the delivery client is
    reached. *)
Theorem rejected_message_stops (payload : value) (pm : ParsedMessage)
    (evsP : list Event) :
  run (parse payload) = (Normal (Some pm), evsP) ->
  fst (run (shouldReplyToMessage (Some pm) (env_value (BOT_INSTAGRAM_ID env))))
  = Normal false ->
  run (processWebhookEvent parse generate send env payload)
  = (Normal tt,
     received_line payload :: evsP
     ++ [parsed_line pm]
     ++ snd (run (shouldReplyToMessage (Some pm)
                    (env_value (BOT_INSTAGRAM_ID env))))
     ++ [filtered_line pm])%list.
Proof.
  intros Hparse%run_inv Hreply. run_pipeline.
  rewrite Hreply. simpl. repeat (pipeline_step; simpl). trace_eq.
Qed.

(** X16. When the reply is generated and is neither [null] nor
    [undefined], the delivery client is called once, with the sender id of
    the parsed message as the recipient and the generated reply, unchanged,
    as the text; the run ends normally, and its last line tells the
    outcome of the delivery: a success at the level INFO with the id of
    the sent message, a failure at the level ERROR with its
    description. *)
Theorem reply_is_delivered (payload : value) (pm : ParsedMessage)
    (aiResponse : value) (result : SendResult) (evsP evsG evsS : list Event) :
  run (parse payload) = (Normal (Some pm), evsP) ->
  fst (run (shouldReplyToMessage (Some pm) (env_value (BOT_INSTAGRAM_ID env))))
  = Normal true ->
  run (generate (messageText pm)) = (Normal aiResponse, evsG) ->
  nullish aiResponse = false ->
  run (send (senderId pm) aiResponse) = (Normal result, evsS) ->
  run (processWebhookEvent parse generate send env payload)
  = (Normal tt,
     received_line payload :: evsP
     ++ [parsed_line pm; filter_line (Some pm) None; passed_line pm]
     ++ evsG ++ [generated_line pm aiResponse]
     ++ evsS ++ [outcome_line pm result])%list.
Proof.
  intros Hparse%run_inv Hreply%shouldReply_accepts Hgen%run_inv Hai Hsend%run_inv.
  run_pipeline. rewrite Hreply. simpl.
  repeat (pipeline_step; simpl; try congruence).
  all: trace_eq.
Qed.

(** X17. A generator that returns [null] or [undefined] stops the run
    before the delivery: reading the length of the reply throws, the
    catch block logs the TypeError with the ids of the message, and the
    delivery client is not called. *)
Theorem absent_reply_is_not_delivered (payload : value) (pm : ParsedMessage)
    (aiResponse : value) (evsP evsG : list Event) :
  run (parse payload) = (Normal (Some pm), evsP) ->
  fst (run (shouldReplyToMessage (Some pm) (env_value (BOT_INSTAGRAM_ID env))))
  = Normal true ->
  run (generate (messageText pm)) = (Normal aiResponse, evsG) ->
  nullish aiResponse = true ->
  run (processWebhookEvent parse generate send env payload)
  = (Normal tt,
     received_line payload :: evsP
     ++ [parsed_line pm; filter_line (Some pm) None; passed_line pm]
     ++ evsG
     ++ [error_line
           (TypeError "Cannot read properties of null or undefined: length")
           (mkLocals (messageId pm) (senderId pm))])%list.
Proof.
  intros Hparse%run_inv Hreply%shouldReply_accepts Hgen%run_inv Hai.
  run_pipeline. rewrite Hreply. simpl.
  repeat (pipeline_step; simpl; try congruence).
  all: trace_eq.
Qed.

Ltac count_step :=
  first [ wp_step
        | match goal with
          | |- wp (js_length _) _ _ => apply wp_js_length; intros ?
          | |- wp (shouldReplyToMessage ?pm ?b) ?s _ =>
              let reply := fresh "reply" in
              let H := fresh "Hfilter" in
              destruct (shouldReply_line s pm b) as (reply & ? & H);
              eapply wp_known; [exact H|]; destruct reply
          | |- wp (match ?r with SendSuccess _ => _ | SendFailure _ => _ end) _ _ =>
              destruct r
          | |- wp (match ?o with Some _ => _ | None => _ end) _ _ =>
              destruct o
          | |- wp _ tt _ =>
              let r := fresh "r" in
              apply wp_unknown; intros r ? ?; destruct r
          end ].

(** The events of a run that satisfy [f], when no log line does: those of
    one call of each collaborator at most. *)
Lemma filter_bounded (f : Event -> bool) (a b c : nat) (payload : value) :
  (forall l, f (Logged l) = false) ->
  (forall x, length (List.filter f (snd (run (parse x)))) <= a) ->
  (forall x, length (List.filter f (snd (run (generate x)))) <= b) ->
  (forall x y, length (List.filter f (snd (run (send x y)))) <= c) ->
  length (List.filter f
            (snd (run (processWebhookEvent parse generate send env payload))))
  <= a + b + c.
Proof.
  intros Hlog Hparse Hgen Hsend.
  apply (wp_run _ (fun x => length (List.filter f (snd x)) <= _)).
  unfold processWebhookEvent, processWebhookEvent_try.
  repeat (count_step; simpl).
  all: repeat match goal with
              | H : run (parse ?x) = _ |- _ =>
                  let Hle := fresh in
                  pose proof (Hparse x) as Hle; rewrite H in Hle; clear H
              | H : run (generate ?x) = _ |- _ =>
                  let Hle := fresh in
                  pose proof (Hgen x) as Hle; rewrite H in Hle; clear H
              | H : run (send ?x ?y) = _ |- _ =>
                  let Hle := fresh in
                  pose proof (Hsend x y) as Hle; rewrite H in Hle; clear H
              end.
  all: simpl in *.
  all: repeat first [ progress rewrite Hlog
                    | progress rewrite List.filter_app
                    | progress rewrite length_app
                    | progress cbn [List.filter length app] ].
  all: lia.
Qed.

End Traces.

Lemma invalid_event_stops_witness :
  run (processWebhookEvent messageParser.parseWebhookEvent fixed_generator
         (delivery always_aborted test_env) test_env envelope_no_timestamp)
  = (Normal tt,
     received_line envelope_no_timestamp
     :: snd (run (messageParser.parseWebhookEvent envelope_no_timestamp))
     ++ [failed_parse_line])%list.
Proof.
  apply (invalid_event_stops messageParser.parseWebhookEvent fixed_generator
           (delivery always_aborted test_env) test_env envelope_no_timestamp).
  vm_compute. reflexivity.
Defined.

Lemma rejected_message_stops_witness :
  run (processWebhookEvent messageParser.parseWebhookEvent fixed_generator
         (delivery always_aborted test_env) test_env envelope_attachment)
  = (Normal tt,
     [received_line envelope_attachment; parsed_line parsed_attachment;
      filter_line (Some parsed_attachment) (Some TextAbsent);
      filtered_line parsed_attachment]).
Proof.
  refine (rejected_message_stops messageParser.parseWebhookEvent
            fixed_generator (delivery always_aborted test_env) test_env
            envelope_attachment parsed_attachment [] _ _);
    vm_compute; reflexivity.
Defined.

Lemma reply_is_delivered_witness :
  run (processWebhookEvent messageParser.parseWebhookEvent fixed_generator
         (delivery always_bad_request test_env) test_env envelope_message)
  = (Normal tt,
     [received_line envelope_message; parsed_line parsed_message;
      filter_line (Some parsed_message) None; passed_line parsed_message;
      generated_line parsed_message (JString "heyy whats up")]
     ++ snd (run (delivery always_bad_request test_env (JString "SENDER_123")
                    (JString "heyy whats up")))
     ++ [outcome_line parsed_message
           (SendFailure (JString "Invalid recipient ID"))])%list.
Proof.
  refine (reply_is_delivered messageParser.parseWebhookEvent fixed_generator
            (delivery always_bad_request test_env) test_env envelope_message
            parsed_message (JString "heyy whats up")
            (SendFailure (JString "Invalid recipient ID")) [] [] _ _ _ _ _ _);
    vm_compute; reflexivity.
Defined.

Lemma absent_reply_is_not_delivered_witness :
  run (processWebhookEvent messageParser.parseWebhookEvent silent_generator
         (delivery always_bad_request test_env) test_env envelope_message)
  = (Normal tt,
     [received_line envelope_message; parsed_line parsed_message;
      filter_line (Some parsed_message) None; passed_line parsed_message;
      error_line
        (TypeError "Cannot read properties of null or undefined: length")
        (mkLocals (JString "MSG_789") (JString "SENDER_123"))]).
Proof.
  refine (absent_reply_is_not_delivered messageParser.parseWebhookEvent
            silent_generator (delivery always_bad_request test_env) test_env
            envelope_message parsed_message JUndefined [] [] _ _ _ _);
    vm_compute; reflexivity.
Defined.

(** X18. The orchestrator posts nothing itself and calls each of its
    collaborators at most once: if a call of the parser makes at most [a]
    POSTs to an address, a call of the generator at most [b] and a call
    of the delivery client at most [c], a run makes at most [a + b + c],
    whatever the payload and also when a collaborator throws. *)
Theorem collaborators_called_once
    (parse : value -> M unit (option ParsedMessage))
    (generate : value -> M unit value)
    (send : value -> value -> M unit SendResult) (env : Env)
    (u : string) (a b c : nat) (payload : value) :
  (forall x, posts_to u (snd (run (parse x))) <= a) ->
  (forall x, posts_to u (snd (run (generate x))) <= b) ->
  (forall x y, posts_to u (snd (run (send x y))) <= c) ->
  posts_to u (snd (run (processWebhookEvent parse generate send env payload)))
  <= a + b + c.
Proof. unfold posts_to. by apply filter_bounded. Qed.

Lemma collaborators_called_once_witness :
  posts_to url
    (snd (run (processWebhookEvent fixed_parser fixed_generator
                 (delivery always_aborted test_env) test_env JNull)))
  <= 0 + 0 + 2.
Proof.
  apply (collaborators_called_once fixed_parser fixed_generator
           (delivery always_aborted test_env) test_env url 0 0 2 JNull);
    intros; vm_compute; lia.
Defined.

(** ** The program with its three modules *)

Lemma filter_le_attempts (f : Event -> bool) (evs : list Event) :
  (forall l, f (Logged l) = false) ->
  length (List.filter f evs) <= attempts evs.
Proof.
  intros Hlog. unfold attempts. induction evs as [|[l|u bearer body] evs IH];
    simpl; rewrite ?Hlog; [lia|done|].
  destruct (f _); simpl; lia.
Qed.

Lemma only_posts_filter (f : Event -> bool) (p : Event) (evs : list Event) :
  (forall l, f (Logged l) = false) -> f p = false -> only_posts p evs ->
  length (List.filter f evs) = 0.
Proof.
  intros Hlog Hp. unfold only_posts. induction 1 as [|ev evs Hev _ IH]; [done|].
  simpl. destruct ev as [l|u bearer body]; [by rewrite Hlog|].
  by rewrite (Hev eq_refl), Hp.
Qed.

(** A POST to neither endpoint. *)
Lemma posts_split (evs : list Event) :
  attempts evs
  = posts_to aiService.url evs + posts_to url evs
    + length (List.filter
                (fun ev => is_post ev && negb (post_to aiService.url ev)
                           && negb (post_to url ev)) evs).
Proof.
  unfold attempts, posts_to. induction evs as [|[l|u bearer body] evs IH];
    simpl; [done|done|].
  destruct (String.eqb_spec u aiService.url) as [->|Hai]; simpl.
  - change (String.eqb aiService.url url) with false. simpl. lia.
  - destruct (String.eqb u url); simpl; lia.
Qed.

Section Program.
Variable groq : PostOutcome.
Variable key : option string.
Variable instagram : nat -> PostOutcome.
Variable env : Env.

Lemma generate_counts (f : Event -> bool) (x : value) :
  (forall l, f (Logged l) = false) ->
  let n := length (List.filter f
                     (snd (run (aiService.generateResponse groq key x)))) in
  n <= 1 /\ (f (generate_post key x) = false -> n = 0).
Proof.
  intros Hlog n. subst n.
  destruct (wp_run _ (fun y => generated (generate_post key x) (fst y) (snd y))
              (generateResponse_wp groq key x)) as (Hn & Hp & _).
  split.
  - etrans; [by apply filter_le_attempts|done].
  - intros Hf. by eapply only_posts_filter.
Qed.

Lemma delivery_counts (f : Event -> bool) (x y : value) :
  (forall l, f (Logged l) = false) ->
  let n := length (List.filter f (snd (run (delivery instagram env x y)))) in
  n <= 2 /\ (f (send_post env x y) = false -> n = 0).
Proof.
  intros Hlog n. subst n.
  destruct (delivery_closed instagram env x y) as (evs & -> & Hn & Hp).
  simpl. split.
  - etrans; [by apply filter_le_attempts|]. rewrite Hn.
    unfold send_closed. repeat case_match; simpl; lia.
  - intros Hf. by eapply only_posts_filter.
Qed.

Lemma pipeline_bounded (parse : value -> M unit (option ParsedMessage))
    (payload : value) :
  (forall x, attempts (snd (run (parse x))) = 0) ->
  bounded_posts (snd (run (pipeline parse groq key instagram env payload))).
Proof.
  intros Hparse. unfold bounded_posts, pipeline.
  assert (forall f, (forall l, f (Logged l) = false) ->
            forall x, length (List.filter f (snd (run (parse x)))) <= 0)
    as Hp.
  { intros f Hlog x. rewrite <- (Hparse x). by apply filter_le_attempts. }
  rewrite posts_split. split; [|split].
  - apply (filter_bounded _ _ _ _ (post_to aiService.url) 0 1 0); [done|auto|..].
    + intros x. by apply generate_counts.
    + intros x y. apply Nat.eq_le_incl. by apply delivery_counts.
  - apply (filter_bounded _ _ _ _ (post_to url) 0 0 2); [done|auto|..].
    + intros x. apply Nat.eq_le_incl. by apply generate_counts.
    + intros x y. by apply delivery_counts.
  - match goal with |- _ + _ + ?n = _ => assert (n <= 0 + 0 + 0); [|lia] end.
    apply filter_bounded; [done|auto|..].
    + intros x. apply Nat.eq_le_incl. by apply generate_counts.
    + intros x y. apply Nat.eq_le_incl. by apply delivery_counts.
Qed.

(** X19. One webhook event costs at most three POSTs, whatever its
    payload and whatever the two remote sides answer: at most one to the
    completions endpoint, at most two to the messages endpoint of the
    Graph API, and none to any other address. This holds with either
    parser. *)
Theorem pipeline_posts (payload : value) :
  bounded_posts
    (snd (run (pipeline messageParser.parseWebhookEvent groq key instagram env
                 payload))) /\
  bounded_posts
    (snd (run (pipeline messageParser2.parseWebhookEvent groq key instagram env
                 payload))).
Proof.
  split; apply pipeline_bounded; intros x; apply parse_no_posts.
Qed.

End Program.

(** ** Events that are dropped *)

Lemma echo_rejected (pm : ParsedMessage) (bot : string) :
  senderId pm = JString bot -> first_rejecting (Some pm) bot <> None.
Proof.
  intros Hs. unfold first_rejecting, rules. simpl.
  rewrite Hs, String.eqb_refl. repeat case_match; done.
Qed.

Lemma dropped_invalid (parse : value -> M unit (option ParsedMessage))
    (env : Env) (payload : value) :
  attempts (snd (run (parse payload))) = 0 ->
  fst (run (parse payload)) = Normal None ->
  dropped parse env payload.
Proof.
  destruct (run (parse payload)) as [r evsP] eqn:Hrun. simpl.
  intros Hn -> generate send. apply run_inv in Hrun.
  assert (forall generate send,
            run (processWebhookEvent parse generate send env payload)
            = (Normal tt,
               received_line payload :: evsP ++ [failed_parse_line])%list)
    as Htrace.
  { intros g s. run_pipeline. done. }
  rewrite !Htrace. split; [|done].
  simpl. change (attempts (evsP ++ [failed_parse_line]) = 0).
  by rewrite attempts_app, Hn.
Qed.

Lemma dropped_rejected (parse : value -> M unit (option ParsedMessage))
    (env : Env) (payload : value) (pm : ParsedMessage) :
  attempts (snd (run (parse payload))) = 0 ->
  fst (run (parse payload)) = Normal (Some pm) ->
  fst (run (shouldReplyToMessage (Some pm) (env_value (BOT_INSTAGRAM_ID env))))
  = Normal false ->
  dropped parse env payload.
Proof.
  destruct (run (parse payload)) as [r evsP] eqn:Hrun. simpl.
  intros Hn -> Hreply generate send. apply run_inv in Hrun.
  destruct (shouldReply_line tt (Some pm) (env_value (BOT_INSTAGRAM_ID env)))
    as (reply & l & Hline).
  assert (forall generate send,
            run (processWebhookEvent parse generate send env payload)
            = (Normal tt,
               received_line payload :: evsP
               ++ [parsed_line pm; Logged l; filtered_line pm])%list)
    as Htrace.
  { intros g s. run_pipeline. rewrite Hreply. simpl.
    repeat (pipeline_step; simpl). unfold run. rewrite Hline. trace_eq. }
  rewrite !Htrace. split; [|done].
  simpl.
  change (attempts (evsP ++ [parsed_line pm; Logged l; filtered_line pm]) = 0).
  by rewrite attempts_app, Hn.
Qed.

Lemma closed_form2_sender (payload : value) (pm : ParsedMessage) :
  closed_form2 payload = Some pm -> senderId pm = carried_sender2 payload.
Proof.
  unfold closed_form2, carried_sender2.
  destruct (truthy (member (first_event payload) "message")) eqn:Hm.
  { rewrite (has_messaging_event _ _ Hm). apply assemble_sender. }
  destruct (truthy (member (first_event payload) "message_edit")) eqn:He.
  { rewrite (has_messaging_event _ _ He). apply assemble_sender. }
  destruct (has_messaging payload); [done|].
  case_match; [|done]. case_match; [done|]. apply assemble_sender.
Qed.

(** X20. A message of the bot itself is dropped, end to end: when the
    sender id the envelope carries is the configured id of the bot, the
    run posts nothing and never reaches the generator or the delivery
    client, whose behaviour cannot change it. This holds with either
    parser, and whatever else the envelope holds. *)
Theorem own_message_is_dropped (env : Env) (payload : value) (bot : string) :
  BOT_INSTAGRAM_ID env = Some bot ->
  carried_sender2 payload = JString bot ->
  dropped messageParser.parseWebhookEvent env payload /\
  dropped messageParser2.parseWebhookEvent env payload.
Proof.
  intros Hbot Hsender.
  assert (forall pm, senderId pm = JString bot ->
            fst (run (shouldReplyToMessage (Some pm)
                        (env_value (BOT_INSTAGRAM_ID env)))) = Normal false)
    as Hecho.
  { intros pm Hs. rewrite Hbot. simpl. rewrite shouldReply_run. simpl.
    f_equal. apply bool_decide_eq_false. by apply echo_rejected. }
  destruct (parse_no_posts payload) as [Hn1 Hn2]. split.
  - destruct (closed_form payload) as [pm|] eqn:Hcf.
    + eapply dropped_rejected; [done|by rewrite parse_closed_form, Hcf|].
      apply Hecho. rewrite <- Hsender.
      by apply closed_form2_sender, closed_form_extends.
    + apply dropped_invalid; [done|by rewrite parse_closed_form, Hcf].
  - destruct (closed_form2 payload) as [pm|] eqn:Hcf.
    + eapply dropped_rejected; [done|by rewrite parse2_closed_form, Hcf|].
      apply Hecho. rewrite <- Hsender. by apply closed_form2_sender.
    + apply dropped_invalid; [done|by rewrite parse2_closed_form, Hcf].
Qed.

Lemma own_message_is_dropped_witness :
  dropped messageParser.parseWebhookEvent echo_env envelope_message /\
  dropped messageParser2.parseWebhookEvent echo_env envelope_message.
Proof.
  apply (own_message_is_dropped echo_env envelope_message "SENDER_123");
    vm_compute; reflexivity.
Defined.

(** ** The filter outside its contract *)

(** X21. The echo rule compares with strict equality, so it cannot fire
    when the id of the bot is not configured, or when the sender id is
    not a string (the number 123 is not the id 123 of the bot): a message
    with a truthy sender id is then accepted exactly when it has a text
    and no attachments. *)
Theorem echo_rule_needs_strings (pm : ParsedMessage) (bot : option string) :
  truthy (senderId pm) = true ->
  bot = None \/ is_string (senderId pm) = false ->
  fst (run (shouldReplyToMessage (Some pm) (env_value bot)))
  = Normal (negb (strict_eq (messageText pm) JNull)
            && negb (hasAttachments pm)).
Proof.
  intros Hsid Hbot. unfold run, shouldReplyToMessage.
  destruct (strict_eq (messageText pm) JNull); [done|].
  destruct (hasAttachments pm); [done|].
  assert (strict_eq (senderId pm) (env_value bot) = false) as ->; [|done].
  destruct Hbot as [->|Hstr]; destruct (senderId pm); try done.
  all: by destruct bot.
Qed.

Lemma echo_rule_needs_strings_witness :
  fst (run (shouldReplyToMessage (Some parsed_numeric_sender)
              (env_value (Some "123"))))
  = Normal true.
Proof.
  refine (echo_rule_needs_strings parsed_numeric_sender (Some "123") _ _);
    [reflexivity|right; reflexivity].
Defined.

(** ** The verification request *)

(** X22. [secureCompare] never throws and logs nothing. It returns [true]
    exactly when both arguments are strings with the same UTF-8 encoding,
    and [false] for anything else, a value that is not a string included
    (an absent token, a secret that is not configured). For two strings
    without a lone surrogate that is their equality; a lone surrogate is
    encoded as the replacement character U+FFFD, so these two different
    strings compare equal. The two padded buffers always have the same
    length, so [timingSafeEqual] returns and the [catch] is never
    entered. *)
Theorem secureCompare_decides (a b : value) :
  run (secureCompare a b)
  = (Normal match a, b with
            | JString s, JString t =>
                bool_decide (Buffer.from s = Buffer.from t)
            | _, _ => false
            end, []) /\
  (forall s t, well_formed s -> well_formed t ->
     (Buffer.from s = Buffer.from t <-> s = t)) /\
  (lone_surrogate <> replacement_character /\
   Buffer.from lone_surrogate = Buffer.from replacement_character) /\
  forall s t,
    let n := Nat.max (length (Buffer.from s)) (length (Buffer.from t)) in
    exists equal,
      run (crypto.timingSafeEqual (Buffer.copy (Buffer.from s) (Buffer.alloc n))
             (Buffer.copy (Buffer.from t) (Buffer.alloc n)))
      = (Normal equal, []).
Proof.
  split; [|split; [|split]].
  - destruct a as [| | | |s| |], b as [| | | |t| |]; try reflexivity.
    unfold run. by rewrite secureCompare_strings.
  - intros s t Hs Ht. split; [by apply from_inj|by intros ->].
  - split; [discriminate|vm_compute; reflexivity].
  - intros s t n. unfold run, crypto.timingSafeEqual.
    rewrite !copy_alloc_length by lia. rewrite Nat.eqb_refl. by eexists.
Qed.

(** The comparison returns, and logs nothing. *)
Lemma secureCompare_silent (a b : value) :
  exists matches, secureCompare a b tt = (Normal matches, tt, []).
Proof.
  destruct a as [| | | |s| |], b as [| | | |t| |]; try by eexists.
  rewrite secureCompare_strings. by eexists.
Qed.

(** X23. [handleVerification] logs exactly one line for a request, with
    one of three fixed messages and without an error; its context is
    empty or holds the supplied mode alone. Neither the supplied token,
    the configured secret nor the challenge is ever logged. *)
Theorem handleVerification_logs (env : Env) (query : gmap string value) :
  exists line,
    snd (run (handleVerification env query)) = [Logged line] /\
    In (message line)
       [Text "Webhook verification failed: Invalid mode";
        Text "Webhook verification failed: Invalid verify token";
        Text "Webhook verification successful"] /\
    error line = None /\
    (context line = [] \/
     context line = [("mode", Val (query_param query "hub.mode"))]).
Proof.
  unfold run, handleVerification.
  destruct (strict_eq_string (query_param query "hub.mode") "subscribe");
    simpl.
  - destruct (secureCompare_silent (query_param query "hub.verify_token")
                (env_value (VERIFY_TOKEN env))) as [matches Hrun].
    unfold bind at 1. rewrite Hrun.
    destruct matches; simpl; eexists; (split; [reflexivity|]); simpl; auto.
  - eexists. split; [reflexivity|]. simpl. auto.
Qed.

(** ** The check of the environment at startup *)

Lemma env_value_truthy (var : option string) :
  truthy (env_value var) = true <-> exists s, var = Some s /\ s <> "".
Proof.
  destruct var as [[|a s]|]; simpl; split; try done.
  - intros (s & [= <-] & Hs). done.
  - intros _. by eexists.
  - intros (s & [=] & _).
Qed.

(** X24. The server starts exactly when each of the four required
    variables (the access token, the verify token, the API key and the
    id of the bot) is set to a non-empty string: a variable that is set
    to the empty string counts as missing, and one missing variable is
    enough to exit. *)
Theorem startup_check (env : gmap string string) :
  server.exits env = false
  <-> Forall (fun varName => exists s, env !! varName = Some s /\ s <> "")
        server.requiredEnvVars.
Proof.
  unfold server.exits, server.missingVars, server.requiredEnvVars.
  rewrite !Forall_cons, Forall_nil, <- !env_value_truthy. simpl.
  destruct (truthy (env_value (env !! "INSTAGRAM_ACCESS_TOKEN"))),
           (truthy (env_value (env !! "VERIFY_TOKEN"))),
           (truthy (env_value (env !! "AI_API_KEY"))),
           (truthy (env_value (env !! "BOT_INSTAGRAM_ID")));
    unfold Nat.ltb; simpl; intuition congruence.
Qed.
